(** * EventsService: a shallow embedding of [src/events.service.ts]

    The service keeps a cached broker connection and channel, dials lazily,
    and forwards publish / declare / consume calls to the broker client
    (amqplib).  Every method of the class is embedded as a computation in a
    state-and-exception monad over the private fields of the object and the
    chronological trace of everything the object asked of its collaborators
    (the broker client and the logger).  The collaborators themselves are a
    parameter: their answers are arbitrary functions of the trace so far. *)

From Stdlib Require Import String List Bool ZArith Lia PrimFloat.
Import ListNotations.
Open Scope string_scope.
Open Scope list_scope.

(** ** JavaScript data *)

(** A JavaScript [number]: an IEEE 754 double, with its two zeros, its
    infinities and NaN. *)
Definition JsNumber : Type := float.

(** Values of type [any] that travel as payloads. *)
#[local] Unset Elimination Schemes.
Inductive JsValue : Type :=
| JUndefined
| JNull
| JBool (b : bool)
| JNumber (n : JsNumber)
| JString (s : string)
| JArray (items : list JsValue)
| JObject (fields : list (string * JsValue)).
#[local] Set Elimination Schemes.

(** A thrown value: an [Error] object with its class name and message. *)
Record JsError : Type := mkError { err_name : string; err_message : string }.

(** Completion of a call: it returns a value or throws. *)
Inductive Result (A : Type) : Type :=
| Ok (a : A)
| Throw (e : JsError).
Arguments Ok {A} a.
Arguments Throw {A} e.

(** An optional property [p?: A] of an object literal.  JavaScript tells a
    property that is not there from one that is there and holds
    [undefined]; object spread copies the second kind too. *)
Inductive OptProp (A : Type) : Type :=
| Missing
| Undefined
| Value (a : A).
Arguments Missing {A}.
Arguments Undefined {A}.
Arguments Value {A} a.

(** [o?.p ?? d] once [o?.p] has been read: only a present, defined value
    survives. *)
Definition nullish_or {A} (p : OptProp A) (d : A) : A :=
  match p with
  | Value a => a
  | _ => d
  end.

(** One key of [{ ...base, ...over }]: an own property of [over] wins,
    whatever it holds. *)
Definition spread_over {A} (base over : OptProp A) : OptProp A :=
  match over with
  | Missing => base
  | _ => over
  end.

(** Truthiness of the values the source tests. *)
Definition truthy_number (n : JsNumber) : bool :=
  negb (PrimFloat.is_zero n || PrimFloat.is_nan n).

Definition truthy_opt_bool (b : option bool) : bool :=
  match b with
  | Some true => true
  | _ => false
  end.

Definition isSome {A} (o : option A) : bool :=
  match o with
  | Some _ => true
  | None => false
  end.

(** ** interfaces/rabbitmq.interface.ts *)

Inductive ExchangeType : Type := direct | topic | fanout | headers.

Record RabbitMQConfig : Type := {
  rc_url : string;
  rc_queue : option string;
  rc_exchange : option string;
  rc_routingKey : option string;
  rc_exchangeType : option ExchangeType;
  rc_durable : option bool;
  rc_persistent : option bool;
  rc_prefetch : option JsNumber
}.

Record MessageOptions : Type := {
  mo_queue : OptProp string;
  mo_exchange : OptProp string;
  mo_routingKey : OptProp string;
  mo_persistent : OptProp bool;
  mo_priority : OptProp JsNumber;
  mo_expiration : OptProp string;
  mo_headers : OptProp JsValue
}.

Record QueueOptions : Type := {
  qo_durable : OptProp bool;
  qo_exclusive : OptProp bool;
  qo_autoDelete : OptProp bool;
  qo_arguments : OptProp JsValue
}.

Record ExchangeOptions : Type := {
  xo_type : ExchangeType;
  xo_durable : OptProp bool;
  xo_autoDelete : OptProp bool;
  xo_internal : OptProp bool;
  xo_arguments : OptProp JsValue
}.

Record ConsumeOptions : Type := {
  co_noAck : OptProp bool;
  co_exclusive : OptProp bool;
  co_priority : OptProp JsNumber;
  co_consumerTag : OptProp string;
  co_noLocal : OptProp bool;
  co_arguments : OptProp JsValue
}.

(** [export interface EventsConfig { rabbitmq?: RabbitMQConfig }] *)
Record EventsConfig : Type := { rabbitmq : option RabbitMQConfig }.

(** ** The broker client's objects *)

Record Connection : Type := { conn_id : nat }.
Record Channel : Type := { chan_id : nat }.

(** A [Buffer]: its bytes, kept as the string they encode. *)
Definition Buffer : Type := string.

(** amqplib's [ConsumeMessage]. *)
Record ConsumeMessage : Type := {
  msg_content : Buffer;
  msg_fields : JsValue;
  msg_properties : JsValue
}.

(** The object handed to the user handler:
    [{ content, fields: msg.fields, properties: msg.properties }]. *)
Record MessageInfo : Type := {
  info_content : JsValue;
  info_fields : JsValue;
  info_properties : JsValue
}.

(** ** The trace *)

Inductive LogLevel : Type := LevelLog | LevelWarn | LevelError.

(** Everything the service asks of the outside, in the order it asks. *)
Inductive Event : Type :=
| EvLog (level : LogLevel) (text : string) (detail : option JsError)
| EvConnect (url : string)
| EvCreateChannel (c : Connection)
| EvPrefetch (ch : Channel) (count : JsNumber)
| EvOn (c : Connection) (event : string)
| EvChannelClose (ch : Channel)
| EvConnectionClose (c : Connection)
| EvSendToQueue (ch : Channel) (queue : string) (body : Buffer)
    (opts : MessageOptions)
| EvPublish (ch : Channel) (exchange routingKey : string) (body : Buffer)
    (opts : MessageOptions)
| EvAssertQueue (ch : Channel) (queue : string) (opts : QueueOptions)
| EvAssertExchange (ch : Channel) (exchange : string) (type : ExchangeType)
    (opts : ExchangeOptions)
| EvConsume (ch : Channel) (queue : string) (opts : ConsumeOptions)
| EvAck (ch : Channel) (msg : ConsumeMessage)
| EvNack (ch : Channel) (msg : ConsumeMessage) (allUpTo requeue : bool)
| EvReject (ch : Channel) (msg : ConsumeMessage) (requeue : bool).

Definition Trace : Type := list Event.

(** The collaborators: the JSON codec of the runtime and the broker client.
    A broker call answers from the trace up to the call, so a broker may
    accept the first dial and refuse the second. *)
Record Runtime : Type := {
  JSON_stringify : JsValue -> Result (option string);
  JSON_parse : string -> Result JsValue;
  amqp_connect : Trace -> string -> Result Connection;
  conn_createChannel : Trace -> Connection -> Result Channel;
  chan_prefetch : Trace -> Channel -> JsNumber -> Result unit;
  chan_close : Trace -> Channel -> Result unit;
  conn_close : Trace -> Connection -> Result unit;
  chan_sendToQueue :
    Trace -> Channel -> string -> Buffer -> MessageOptions -> Result bool;
  chan_publish :
    Trace -> Channel -> string -> string -> Buffer -> MessageOptions ->
    Result bool;
  chan_assertQueue : Trace -> Channel -> string -> QueueOptions -> Result unit;
  chan_assertExchange :
    Trace -> Channel -> string -> ExchangeType -> ExchangeOptions ->
    Result unit;
  chan_consume : Trace -> Channel -> string -> ConsumeOptions -> Result string;
  chan_ack : Trace -> Channel -> ConsumeMessage -> Result unit;
  chan_nack : Trace -> Channel -> ConsumeMessage -> bool -> bool -> Result unit;
  chan_reject : Trace -> Channel -> ConsumeMessage -> bool -> Result unit
}.

(** [Buffer.from(x)] for [x] the result of [JSON.stringify]: a string gives
    its bytes, [undefined] is a [TypeError]. *)
Definition Buffer_from (x : option string) : Result Buffer :=
  match x with
  | Some s => Ok s
  | None =>
      Throw (mkError "TypeError"
               "The first argument must be of type string or an instance of Buffer, ArrayBuffer, or Array or an Array-like Object. Received undefined")
  end.

(** [buf.toString()] *)
Definition Buffer_toString (b : Buffer) : string := b.

(** Reading a member of [this.channel!] when the field holds [null]. *)
Definition null_deref (member : string) : JsError :=
  mkError "TypeError"
    ("Cannot read properties of null (reading '" ++ member ++ "')")%string.

(** ** The object *)

Record EventsService : Type := {
  connection : option Connection;
  channel : option Channel;
  config : EventsConfig;
  rabbitMQEnabled : bool
}.

Definition with_connection (c : option Connection) (s : EventsService) :=
  {| connection := c; channel := channel s; config := config s;
     rabbitMQEnabled := rabbitMQEnabled s |}.

Definition with_channel (ch : option Channel) (s : EventsService) :=
  {| connection := connection s; channel := ch; config := config s;
     rabbitMQEnabled := rabbitMQEnabled s |}.

(** [constructor(config?: EventsConfig)] *)
Definition constructor (cfg : option EventsConfig) : EventsService :=
  let c := match cfg with Some c => c | None => {| rabbitmq := None |} end in
  {| connection := None; channel := None; config := c;
     rabbitMQEnabled := isSome (rabbitmq c) |}.

(** ** The monad of method bodies *)

Definition St : Type := (EventsService * Trace)%type.

Definition M (A : Type) : Type := St -> Result A * St.

Definition ret {A} (a : A) : M A := fun st => (Ok a, st).

Definition throw {A} (e : JsError) : M A := fun st => (Throw e, st).

Definition bind {A B} (m : M A) (k : A -> M B) : M B :=
  fun st =>
    match m st with
    | (Ok a, st') => k a st'
    | (Throw e, st') => (Throw e, st')
    end.

(** [try { body } catch (error) { handler }]: the fields and the trace keep
    what [body] did to them before it threw. *)
Definition try_catch {A} (body : M A) (handler : JsError -> M A) : M A :=
  fun st =>
    match body st with
    | (Ok a, st') => (Ok a, st')
    | (Throw e, st') => handler e st'
    end.

Definition this : M EventsService := fun st => (Ok (fst st), st).

Definition assign (f : EventsService -> EventsService) : M unit :=
  fun st => (Ok tt, (f (fst st), snd st)).

(** A pure runtime call that may throw. *)
Definition lift {A} (r : Result A) : M A := fun st => (r, st).

(** A call to a collaborator: it is recorded, and answered from the trace
    before it. *)
Definition call {A} (ev : Event) (answer : Trace -> Result A) : M A :=
  fun st => (answer (snd st), (fst st, snd st ++ [ev])).

Declare Scope svc_scope.
Delimit Scope svc_scope with svc.
Notation "x <- m ;; k" := (bind m (fun x => k))
  (at level 61, m at next level, right associativity) : svc_scope.
Notation "m ;; k" := (bind m (fun _ => k))
  (at level 61, right associativity) : svc_scope.
Open Scope svc_scope.

(** [this.logger.log / warn / error] *)
Definition logger_log (text : string) : M unit :=
  call (EvLog LevelLog text None) (fun _ => Ok tt).

Definition logger_warn (text : string) : M unit :=
  call (EvLog LevelWarn text None) (fun _ => Ok tt).

Definition logger_error (text : string) (e : JsError) : M unit :=
  call (EvLog LevelError text (Some e)) (fun _ => Ok tt).

(** ** Option objects built by the methods *)

(** [{ persistent: options?.persistent ?? true, ...options }] *)
Definition publishOptions (options : option MessageOptions) : MessageOptions :=
  match options with
  | None =>
      {| mo_queue := Missing; mo_exchange := Missing; mo_routingKey := Missing;
         mo_persistent := Value true; mo_priority := Missing;
         mo_expiration := Missing; mo_headers := Missing |}
  | Some o =>
      {| mo_queue := mo_queue o; mo_exchange := mo_exchange o;
         mo_routingKey := mo_routingKey o;
         mo_persistent :=
           spread_over (Value (nullish_or (mo_persistent o) true))
             (mo_persistent o);
         mo_priority := mo_priority o; mo_expiration := mo_expiration o;
         mo_headers := mo_headers o |}
  end.

(** [{ durable: true, ...options }] in [createQueue] *)
Definition queueOptions (options : option QueueOptions) : QueueOptions :=
  match options with
  | None =>
      {| qo_durable := Value true; qo_exclusive := Missing;
         qo_autoDelete := Missing; qo_arguments := Missing |}
  | Some o =>
      {| qo_durable := spread_over (Value true) (qo_durable o);
         qo_exclusive := qo_exclusive o; qo_autoDelete := qo_autoDelete o;
         qo_arguments := qo_arguments o |}
  end.

(** [{ durable: true, ...options }] in [createExchange] *)
Definition exchangeOptions (options : ExchangeOptions) : ExchangeOptions :=
  {| xo_type := xo_type options;
     xo_durable := spread_over (Value true) (xo_durable options);
     xo_autoDelete := xo_autoDelete options;
     xo_internal := xo_internal options;
     xo_arguments := xo_arguments options |}.

(** [{ noAck: false, ...options }] in [consume] *)
Definition consumeOptions (options : option ConsumeOptions) : ConsumeOptions :=
  match options with
  | None =>
      {| co_noAck := Value false; co_exclusive := Missing;
         co_priority := Missing; co_consumerTag := Missing;
         co_noLocal := Missing; co_arguments := Missing |}
  | Some o =>
      {| co_noAck := spread_over (Value false) (co_noAck o);
         co_exclusive := co_exclusive o; co_priority := co_priority o;
         co_consumerTag := co_consumerTag o; co_noLocal := co_noLocal o;
         co_arguments := co_arguments o |}
  end.

(** ** User handlers *)

(** What [handler(messageInfo, ack, nack)] hands back when it returns: nothing,
    or a promise that later settles. *)
Inductive HandlerReturn : Type :=
| ReturnsVoid
| ReturnsPromise (settles : Result unit).

(** A handler sees the service only through the two callables it is given.
    Its run is a sequence of calls to them, each continued according to
    whether the call returned or threw (the handler may catch), ended by a
    return or a synchronous throw. *)
Inductive HandlerRun : Type :=
| HReturn (r : HandlerReturn)
| HThrow (e : JsError)
| HAck (k : Result unit -> HandlerRun)
| HNack (requeue : option bool) (k : Result unit -> HandlerRun).

(** [interface MessageHandler] *)
Definition MessageHandler : Type := MessageInfo -> HandlerRun.

(** ** The methods of [EventsService] *)

Section Service.

Variable rt : Runtime.

(** The observers registered on the connection. *)
Definition connectionErrorObserver (err : JsError) : M unit :=
  logger_error "RabbitMQ connection error:" err.

Definition connectionCloseObserver : M unit :=
  logger_warn "RabbitMQ connection closed".

Definition connectToRabbitMQ : M unit :=
  s <- this ;;
  match rabbitmq (config s) with
  | None => ret tt
  | Some rc =>
      try_catch
        (c <- call (EvConnect (rc_url rc)) (fun t => amqp_connect rt t (rc_url rc)) ;;
         assign (with_connection (Some c)) ;;
         ch <- call (EvCreateChannel c) (fun t => conn_createChannel rt t c) ;;
         assign (with_channel (Some ch)) ;;
         match rc_prefetch rc with
         | Some n =>
             if truthy_number n
             then call (EvPrefetch ch n) (fun t => chan_prefetch rt t ch n)
             else ret tt
         | None => ret tt
         end ;;
         call (EvOn c "error") (fun _ => Ok tt) ;;
         call (EvOn c "close") (fun _ => Ok tt) ;;
         logger_log "Connected to RabbitMQ successfully")
        (fun error =>
           logger_error "Failed to connect to RabbitMQ:" error ;;
           throw error)
  end.

Definition onModuleInit : M unit :=
  s <- this ;;
  if rabbitMQEnabled s && isSome (rabbitmq (config s))
  then connectToRabbitMQ
  else ret tt.

Definition disconnect : M unit :=
  try_catch
    (s <- this ;;
     match channel s with
     | Some ch =>
         call (EvChannelClose ch) (fun t => chan_close rt t ch) ;;
         assign (with_channel None)
     | None => ret tt
     end ;;
     s <- this ;;
     match connection s with
     | Some c =>
         call (EvConnectionClose c) (fun t => conn_close rt t c) ;;
         assign (with_connection None)
     | None => ret tt
     end ;;
     logger_log "Disconnected from RabbitMQ")
    (fun error => logger_error "Error disconnecting from RabbitMQ:" error).

Definition onModuleDestroy : M unit := disconnect.

Definition ensureConnection : M unit :=
  s <- this ;;
  if negb (rabbitMQEnabled s)
  then throw (mkError "Error" "RabbitMQ is not configured")
  else
    if negb (isSome (connection s)) || negb (isSome (channel s))
    then connectToRabbitMQ
    else ret tt.

Definition sendToQueue (queueName : string) (message : JsValue)
    (options : option MessageOptions) : M bool :=
  ensureConnection ;;
  try_catch
    (json <- lift (JSON_stringify rt message) ;;
     messageBuffer <- lift (Buffer_from json) ;;
     s <- this ;;
     match channel s with
     | Some ch =>
         call (EvSendToQueue ch queueName messageBuffer (publishOptions options))
           (fun t =>
              chan_sendToQueue rt t ch queueName messageBuffer
                (publishOptions options))
     | None => throw (null_deref "sendToQueue")
     end)
    (fun error =>
       logger_error
         ("Error sending message to queue " ++ queueName ++ ":")%string error ;;
       throw error).

Definition publishToExchange (exchangeName routingKey : string)
    (message : JsValue) (options : option MessageOptions) : M bool :=
  ensureConnection ;;
  try_catch
    (json <- lift (JSON_stringify rt message) ;;
     messageBuffer <- lift (Buffer_from json) ;;
     s <- this ;;
     match channel s with
     | Some ch =>
         call
           (EvPublish ch exchangeName routingKey messageBuffer
              (publishOptions options))
           (fun t =>
              chan_publish rt t ch exchangeName routingKey messageBuffer
                (publishOptions options))
     | None => throw (null_deref "publish")
     end)
    (fun error =>
       logger_error
         ("Error publishing message to exchange " ++ exchangeName ++ ":")%string
         error ;;
       throw error).

Definition emitEvent (eventName : string) (data : JsValue)
    (options : option MessageOptions) : M unit :=
  logger_log ("Event emitted: " ++ eventName)%string ;;
  s <- this ;;
  if rabbitMQEnabled s
  then
    try_catch
      (sendToQueue ("events." ++ eventName)%string data options ;; ret tt)
      (fun error =>
         logger_error
           ("Failed to send event " ++ eventName ++ " to RabbitMQ:")%string
           error)
  else ret tt.

Definition createQueue (queueName : string) (options : option QueueOptions)
    : M unit :=
  ensureConnection ;;
  s <- this ;;
  match channel s with
  | Some ch =>
      call (EvAssertQueue ch queueName (queueOptions options))
        (fun t => chan_assertQueue rt t ch queueName (queueOptions options))
  | None => throw (null_deref "assertQueue")
  end.

Definition createExchange (exchangeName : string) (options : ExchangeOptions)
    : M unit :=
  ensureConnection ;;
  s <- this ;;
  match channel s with
  | Some ch =>
      call
        (EvAssertExchange ch exchangeName (xo_type options)
           (exchangeOptions options))
        (fun t =>
           chan_assertExchange rt t ch exchangeName (xo_type options)
             (exchangeOptions options))
  | None => throw (null_deref "assertExchange")
  end.

(** [const ack = () => this.channel!.ack(msg)] *)
Definition ack (msg : ConsumeMessage) : M unit :=
  s <- this ;;
  match channel s with
  | Some ch => call (EvAck ch msg) (fun t => chan_ack rt t ch msg)
  | None => throw (null_deref "ack")
  end.

(** [const nack = (requeue = false) => { ... }] *)
Definition nack (msg : ConsumeMessage) (requeue : option bool) : M unit :=
  let requeue := match requeue with Some b => b | None => false end in
  s <- this ;;
  if requeue
  then
    match channel s with
    | Some ch =>
        call (EvNack ch msg false true)
          (fun t => chan_nack rt t ch msg false true)
    | None => throw (null_deref "nack")
    end
  else
    match channel s with
    | Some ch =>
        call (EvReject ch msg false) (fun t => chan_reject rt t ch msg false)
    | None => throw (null_deref "reject")
    end.

(** The handler's run, with [ack] and [nack] bound to [msg]. *)
Fixpoint runHandler (msg : ConsumeMessage) (h : HandlerRun)
    : M HandlerReturn :=
  match h with
  | HReturn r => ret r
  | HThrow e => throw e
  | HAck k =>
      fun st => let (r, st') := ack msg st in runHandler msg (k r) st'
  | HNack requeue k =>
      fun st => let (r, st') := nack msg requeue st in runHandler msg (k r) st'
  end.

(** The callback [(msg) => { if (msg) { try { ... } catch { ... } } }] that
    [consume] registers with the channel. *)
Definition deliveryCallback (handler : MessageHandler)
    (msg : option ConsumeMessage) : M unit :=
  match msg with
  | None => ret tt
  | Some m =>
      try_catch
        (content <- lift (JSON_parse rt (Buffer_toString (msg_content m))) ;;
         runHandler m
           (handler
              {| info_content := content; info_fields := msg_fields m;
                 info_properties := msg_properties m |}) ;;
         ret tt)
        (fun error =>
           logger_error "Error processing message:" error ;;
           s <- this ;;
           match channel s with
           | Some ch =>
               call (EvReject ch m false)
                 (fun t => chan_reject rt t ch m false)
           | None => throw (null_deref "reject")
           end)
  end.

(** [consume]: the broker keeps the callback [deliveryCallback handler] and
    answers with the consumer tag. *)
Definition consume (queueName : string) (handler : MessageHandler)
    (options : option ConsumeOptions) : M string :=
  ensureConnection ;;
  s <- this ;;
  match channel s with
  | Some ch =>
      call (EvConsume ch queueName (consumeOptions options))
        (fun t => chan_consume rt t ch queueName (consumeOptions options))
  | None => throw (null_deref "consume")
  end.

Definition isConnected : M bool :=
  s <- this ;;
  ret (rabbitMQEnabled s && isSome (connection s) && isSome (channel s)).

Definition isRabbitMQEnabled : M bool :=
  s <- this ;;
  ret (rabbitMQEnabled s).

End Service.

(** ** Reachable states *)

(** What the outside can do with the object once it is built: the two
    lifecycle hooks, the public methods, a delivery to a registered
    callback, and the firing of a connection observer.  A step here runs
    its call to the end: these are the calls made one after another, each
    awaited before the next.  Calls in flight together, suspended at their
    [await]s, are the matter of [Interleaved] below. *)
Inductive Op : Type :=
| OpModuleInit
| OpModuleDestroy
| OpEmitEvent (eventName : string) (data : JsValue)
    (options : option MessageOptions)
| OpSendToQueue (queueName : string) (message : JsValue)
    (options : option MessageOptions)
| OpPublishToExchange (exchangeName routingKey : string) (message : JsValue)
    (options : option MessageOptions)
| OpCreateQueue (queueName : string) (options : option QueueOptions)
| OpCreateExchange (exchangeName : string) (options : ExchangeOptions)
| OpConsume (queueName : string) (handler : MessageHandler)
    (options : option ConsumeOptions)
| OpDelivery (handler : MessageHandler) (msg : option ConsumeMessage)
| OpConnectionError (err : JsError)
| OpConnectionClose
| OpIsConnected
| OpIsRabbitMQEnabled.

Definition discard {A} (m : M A) : M unit := m ;; ret tt.

Definition perform (rt : Runtime) (op : Op) : M unit :=
  match op with
  | OpModuleInit => onModuleInit rt
  | OpModuleDestroy => onModuleDestroy rt
  | OpEmitEvent n d o => emitEvent rt n d o
  | OpSendToQueue q m o => discard (sendToQueue rt q m o)
  | OpPublishToExchange x k m o => discard (publishToExchange rt x k m o)
  | OpCreateQueue q o => createQueue rt q o
  | OpCreateExchange x o => createExchange rt x o
  | OpConsume q h o => discard (consume rt q h o)
  | OpDelivery h m => deliveryCallback rt h m
  | OpConnectionError e => connectionErrorObserver e
  | OpConnectionClose => connectionCloseObserver
  | OpIsConnected => discard isConnected
  | OpIsRabbitMQEnabled => discard isRabbitMQEnabled
  end.

(** The states of an object built by [new EventsService(cfg)], with an empty
    trace, after any sequence of such steps, each run to its end before
    the next starts. *)
Inductive reachable (rt : Runtime) (cfg : option EventsConfig) : St -> Prop :=
| reach_new : reachable rt cfg (constructor cfg, [])
| reach_step st op :
    reachable rt cfg st -> reachable rt cfg (snd (perform rt op st)).

(** The profile the constructor was given, if any. *)
Definition supplied (cfg : option EventsConfig) : option RabbitMQConfig :=
  match cfg with
  | Some c => rabbitmq c
  | None => None
  end.

(** ** Test doubles for the collaborators *)

Module Doubles.

(** A JSON codec on the few values the examples send; it refuses the
    others. *)
Definition stringify (v : JsValue) : Result (option string) :=
  match v with
  | JUndefined => Ok None
  | JNull => Ok (Some "null")
  | JBool true => Ok (Some "true")
  | JBool false => Ok (Some "false")
  | JNumber n =>
      if PrimFloat.eqb n 1
      then Ok (Some "1")
      else Throw (mkError "TypeError" "value not covered by the codec double")
  | JArray [] => Ok (Some "[]")
  | JObject [] => Ok (Some "{}")
  | _ => Throw (mkError "TypeError" "value not covered by the codec double")
  end.

Definition parse (s : string) : Result JsValue :=
  if String.eqb s "null" then Ok JNull
  else if String.eqb s "true" then Ok (JBool true)
  else if String.eqb s "false" then Ok (JBool false)
  else if String.eqb s "1" then Ok (JNumber 1%float)
  else if String.eqb s "[]" then Ok (JArray [])
  else if String.eqb s "{}" then Ok (JObject [])
  else Throw (mkError "SyntaxError" "Unexpected token in JSON").

(** A broker that accepts everything; handles are numbered by the length
    of the trace at the call that made them. *)
Definition mk (connect_answer : Trace -> string -> Result Connection)
    (chan_close_answer : Trace -> Channel -> Result unit) : Runtime :=
  {| JSON_stringify := stringify;
     JSON_parse := parse;
     amqp_connect := connect_answer;
     conn_createChannel := fun t _ => Ok {| chan_id := length t |};
     chan_prefetch := fun _ _ _ => Ok tt;
     chan_close := chan_close_answer;
     conn_close := fun _ _ => Ok tt;
     chan_sendToQueue := fun _ _ _ _ _ => Ok true;
     chan_publish := fun _ _ _ _ _ _ => Ok true;
     chan_assertQueue := fun _ _ _ _ => Ok tt;
     chan_assertExchange := fun _ _ _ _ _ => Ok tt;
     chan_consume := fun _ _ _ _ => Ok "ctag-1";
     chan_ack := fun _ _ _ => Ok tt;
     chan_nack := fun _ _ _ _ _ => Ok tt;
     chan_reject := fun _ _ _ _ => Ok tt |}.

Definition happy : Runtime :=
  mk (fun t _ => Ok {| conn_id := length t |}) (fun _ _ => Ok tt).

(** A broker nobody listens at. *)
Definition refusing : Runtime :=
  mk (fun _ _ => Throw (mkError "Error" "connect ECONNREFUSED"))
     (fun _ _ => Ok tt).

(** A broker whose channels are already closed when the service closes them,
    as after a dropped connection. *)
Definition closed_channel : Runtime :=
  mk (fun t _ => Ok {| conn_id := length t |})
     (fun _ _ => Throw (mkError "IllegalOperationError" "Channel closed")).

Definition profile : RabbitMQConfig :=
  {| rc_url := "amqp://localhost:5672"; rc_queue := None; rc_exchange := None;
     rc_routingKey := None; rc_exchangeType := None; rc_durable := None;
     rc_persistent := None; rc_prefetch := Some 10%float |}.

Definition enabled : option EventsConfig := Some {| rabbitmq := Some profile |}.

Definition delivery (body : string) : ConsumeMessage :=
  {| msg_content := body; msg_fields := JNull; msg_properties := JNull |}.

(** Handlers: one that acknowledges, one that throws at once, one that
    returns a promise that rejects. *)
Definition acking : MessageHandler :=
  fun _ => HAck (fun _ => HReturn ReturnsVoid).

Definition throwing : MessageHandler :=
  fun _ => HThrow (mkError "Error" "handler failed").

Definition rejecting_later : MessageHandler :=
  fun _ => HReturn (ReturnsPromise (Throw (mkError "Error" "handler failed"))).

(** The service after a successful [onModuleInit]. *)
Definition connected : St :=
  snd (perform happy OpModuleInit (constructor enabled, [])).

End Doubles.

(** * The vocabulary of the statements *)

(** A computation leaves [config] and [rabbitMQEnabled] as it found them. *)
Definition keeps_config {A} (m : M A) : Prop :=
  forall st,
    config (fst (snd (m st))) = config (fst st) /\
    rabbitMQEnabled (fst (snd (m st))) = rabbitMQEnabled (fst st).

(** How many times a stretch of the trace dials the broker. *)
Fixpoint dials (t : Trace) : nat :=
  match t with
  | [] => 0
  | EvConnect _ :: t' => S (dials t')
  | _ :: t' => dials t'
  end.

(** The error [ensureConnection] throws on a service built without a
    profile. *)
Definition notConfigured : JsError :=
  mkError "Error" "RabbitMQ is not configured".

(** The close calls [disconnect] has to make for the handles it finds, in
    source order: the channel's, then the connection's. *)
Definition channel_teardown (s : EventsService) : Trace :=
  match channel s with
  | Some ch => [EvChannelClose ch]
  | None => []
  end.

Definition connection_teardown (s : EventsService) : Trace :=
  match connection s with
  | Some c => [EvConnectionClose c]
  | None => []
  end.

Definition teardown_plan (s : EventsService) : Trace :=
  channel_teardown s ++ connection_teardown s.

(** The channel step goes through: there is no channel, or its close
    resolves. *)
Definition channel_closes (rt : Runtime) (s : EventsService) (t : Trace)
    : Prop :=
  match channel s with
  | Some ch => chan_close rt t ch = Ok tt
  | None => True
  end.

Definition connection_closes (rt : Runtime) (s : EventsService) (t : Trace)
    : Prop :=
  match connection s with
  | Some c => conn_close rt (t ++ channel_teardown s) c = Ok tt
  | None => True
  end.

(** The log lines of the methods. *)
Definition disconnected_log : Event :=
  EvLog LevelLog "Disconnected from RabbitMQ" None.

Definition disconnect_error_log (e : JsError) : Event :=
  EvLog LevelError "Error disconnecting from RabbitMQ:" (Some e).

(** A computation only appends to the trace, and every event it appends
    satisfies [P]. *)
Definition emits (P : Event -> Prop) {A} (m : M A) : Prop :=
  forall st,
    exists new, snd (snd (m st)) = snd st ++ new /\ Forall P new.

(** An event that is not a send, or is a send to [q]. *)
Definition sends_only_to (q : string) (ev : Event) : Prop :=
  match ev with
  | EvSendToQueue _ q' _ _ => q' = q
  | _ => True
  end.

(** An event that resolves no delivery other than [m]. *)
Definition resolves_only (m : ConsumeMessage) (ev : Event) : Prop :=
  match ev with
  | EvAck _ m' | EvNack _ m' _ _ | EvReject _ m' _ => m' = m
  | _ => True
  end.

Definition emitted_log (eventName : string) : Event :=
  EvLog LevelLog ("Event emitted: " ++ eventName)%string None.

Definition send_failed_log (eventName : string) (e : JsError) : Event :=
  EvLog LevelError
    ("Failed to send event " ++ eventName ++ " to RabbitMQ:")%string (Some e).

Definition send_error_log (queueName : string) (e : JsError) : Event :=
  EvLog LevelError
    ("Error sending message to queue " ++ queueName ++ ":")%string (Some e).

Definition publish_error_log (exchangeName : string) (e : JsError) : Event :=
  EvLog LevelError
    ("Error publishing message to exchange " ++ exchangeName ++ ":")%string
    (Some e).

Definition processing_error_log (e : JsError) : Event :=
  EvLog LevelError "Error processing message:" (Some e).

(** The object the handler receives for [m] once its body decoded to
    [content]. *)
Definition messageInfo (m : ConsumeMessage) (content : JsValue) : MessageInfo :=
  {| info_content := content; info_fields := msg_fields m;
     info_properties := msg_properties m |}.

(** The [catch] branch of the callback, entered with [e] in state
    [(s, t)] while [ch] is the cached channel. *)
Definition rejected (rt : Runtime) (ch : Channel) (m : ConsumeMessage)
    (e : JsError) (s : EventsService) (t : Trace) : Result unit * St :=
  (chan_reject rt (t ++ [processing_error_log e]) ch m false,
   (s, t ++ [processing_error_log e; EvReject ch m false])).

(** ** Further vocabulary: connecting, idleness, dial counts *)

Definition connected_log : Event :=
  EvLog LevelLog "Connected to RabbitMQ successfully" None.

Definition connect_failed_log (e : JsError) : Event :=
  EvLog LevelError "Failed to connect to RabbitMQ:" (Some e).

(** The [prefetch] call [connectToRabbitMQ] makes for a profile: one, when
    the configured count is a truthy number; none otherwise. *)
Definition prefetch_calls (rc : RabbitMQConfig) (ch : Channel) : Trace :=
  match rc_prefetch rc with
  | Some n => if truthy_number n then [EvPrefetch ch n] else []
  | None => []
  end.

(** That call, if there is one, resolves when made after trace [t]. *)
Definition prefetch_resolves (rt : Runtime) (rc : RabbitMQConfig) (t : Trace)
    (ch : Channel) : Prop :=
  match rc_prefetch rc with
  | Some n => if truthy_number n then chan_prefetch rt t ch n = Ok tt else True
  | None => True
  end.

(** A line of the logger, as opposed to a call to the broker client. *)
Definition is_log (ev : Event) : Prop :=
  match ev with
  | EvLog _ _ _ => True
  | _ => False
  end.

Definition no_dial (ev : Event) : Prop :=
  match ev with
  | EvConnect _ => False
  | _ => True
  end.

Definition no_close (ev : Event) : Prop :=
  match ev with
  | EvChannelClose _ | EvConnectionClose _ => False
  | _ => True
  end.

(** A computation only appends to the trace, and dials at most [n] times. *)
Definition dials_at_most (n : nat) {A} (m : M A) : Prop :=
  forall st,
    exists new, snd (snd (m st)) = snd st ++ new /\ dials new <= n.

(** A cached channel comes with a cached connection. *)
Definition handles_nested (s : EventsService) : Prop :=
  channel s <> None -> connection s <> None.

(** ** Faulty brokers *)

Module Faults.

Definition with_createChannel
    (answer : Trace -> Connection -> Result Channel) (rt : Runtime)
    : Runtime :=
  {| JSON_stringify := JSON_stringify rt;
     JSON_parse := JSON_parse rt;
     amqp_connect := amqp_connect rt;
     conn_createChannel := answer;
     chan_prefetch := chan_prefetch rt;
     chan_close := chan_close rt;
     conn_close := conn_close rt;
     chan_sendToQueue := chan_sendToQueue rt;
     chan_publish := chan_publish rt;
     chan_assertQueue := chan_assertQueue rt;
     chan_assertExchange := chan_assertExchange rt;
     chan_consume := chan_consume rt;
     chan_ack := chan_ack rt;
     chan_nack := chan_nack rt;
     chan_reject := chan_reject rt |}.

Definition with_prefetch
    (answer : Trace -> Channel -> JsNumber -> Result unit)
    (rt : Runtime) : Runtime :=
  {| JSON_stringify := JSON_stringify rt;
     JSON_parse := JSON_parse rt;
     amqp_connect := amqp_connect rt;
     conn_createChannel := conn_createChannel rt;
     chan_prefetch := answer;
     chan_close := chan_close rt;
     conn_close := conn_close rt;
     chan_sendToQueue := chan_sendToQueue rt;
     chan_publish := chan_publish rt;
     chan_assertQueue := chan_assertQueue rt;
     chan_assertExchange := chan_assertExchange rt;
     chan_consume := chan_consume rt;
     chan_ack := chan_ack rt;
     chan_nack := chan_nack rt;
     chan_reject := chan_reject rt |}.

Definition channel_max : JsError :=
  mkError "Error" "No channels left to allocate".

Definition not_allowed : JsError :=
  mkError "Error" "Channel closed by server: 530 (NOT-ALLOWED)".

(** A broker that accepts the dial and refuses to open a channel. *)
Definition no_channel : Runtime :=
  with_createChannel (fun _ _ => Throw channel_max) Doubles.happy.

(** A broker that refuses [prefetch]. *)
Definition no_prefetch : Runtime :=
  with_prefetch (fun _ _ _ => Throw not_allowed) Doubles.happy.

(** A broker that refuses the first dial and accepts the later ones. *)
Definition flaky : Runtime :=
  Doubles.mk
    (fun t _ =>
       if Nat.eqb (dials t) 0
       then Throw (mkError "Error" "connect ECONNREFUSED")
       else Ok {| conn_id := length t |})
    (fun _ _ => Ok tt).

(** A profile without prefetch, and one with [prefetch: 0]. *)
Definition plain_profile : RabbitMQConfig :=
  {| rc_url := "amqp://localhost:5672"; rc_queue := None; rc_exchange := None;
     rc_routingKey := None; rc_exchangeType := None; rc_durable := None;
     rc_persistent := None; rc_prefetch := None |}.

Definition zero_prefetch_profile : RabbitMQConfig :=
  {| rc_url := "amqp://localhost:5672"; rc_queue := None; rc_exchange := None;
     rc_routingKey := None; rc_exchangeType := None; rc_durable := None;
     rc_persistent := None; rc_prefetch := Some 0%float |}.

(** A handler that acknowledges and then throws. *)
Definition ack_then_throw : MessageHandler :=
  fun _ => HAck (fun _ => HThrow (mkError "Error" "handler failed")).

End Faults.

(** * The async methods with their suspension points

    The methods above run each call to its end in one go: they are the
    service as it behaves when every call is awaited before the next one
    is made.  JavaScript suspends an [async] function at every [await], and
    other calls on the same object may run before it resumes.  This module
    embeds the same method bodies with each [await] of the source as a
    suspension point; [alone] runs such a body with nothing in between and
    gives back the method above. *)

Module Interleaved.

(** A promise as its owner sees it: settled, or suspended with what the
    function does when it is resumed, up to its next [await] or its end. *)
#[local] Unset Elimination Schemes.
Inductive Async (A : Type) : Type :=
| Settled (r : Result A)
| Pending (resume : St -> Async A * St).
#[local] Set Elimination Schemes.
Arguments Settled {A} r.
Arguments Pending {A} resume.

(** An async function body from where it stands: run from a state, it
    reaches its end or its next [await]. *)
Definition Proc (A : Type) : Type := St -> Async A * St.

(** Code between two suspension points. *)
Definition sync {A} (m : M A) : Proc A :=
  fun st => let (r, st') := m st in (Settled r, st').

(** [await] on a promise: the awaiting function is suspended at least
    once, also when the promise is already settled, and once more after
    the awaited function has settled. *)
Fixpoint awaited {A} (a : Async A) : Async A :=
  match a with
  | Settled r => Pending (fun st => (Settled r, st))
  | Pending resume =>
      Pending (fun st => let (a', st') := resume st in (awaited a', st'))
  end.

(** [await f(...)]: [f] runs at once up to its first [await]; the caller
    then waits for it. *)
Definition await {A} (p : Proc A) : Proc A :=
  fun st => let (a, st') := p st in (awaited a, st').

(** What follows a promise in the function that holds it. *)
Fixpoint andThen {A B} (a : Async A) (k : A -> Proc B) (st : St)
    : Async B * St :=
  match a with
  | Settled (Ok x) => k x st
  | Settled (Throw e) => (Settled (Throw e), st)
  | Pending resume =>
      (Pending (fun st' => let (a', st'') := resume st' in andThen a' k st''),
       st)
  end.

Definition pbind {A B} (p : Proc A) (k : A -> Proc B) : Proc B :=
  fun st => let (a, st') := p st in andThen a k st'.

(** [try { ... } catch (error) { ... }] around code that awaits. *)
Fixpoint catching {A} (a : Async A) (h : JsError -> Proc A) (st : St)
    : Async A * St :=
  match a with
  | Settled (Ok x) => (Settled (Ok x), st)
  | Settled (Throw e) => h e st
  | Pending resume =>
      (Pending
         (fun st' => let (a', st'') := resume st' in catching a' h st''),
       st)
  end.

Definition ptry {A} (p : Proc A) (h : JsError -> Proc A) : Proc A :=
  fun st => let (a, st') := p st in catching a h st'.

(** The scheduler resumes a suspended function in the state of that
    moment. *)
Definition resume {A} (a : Async A) (st : St) : Async A * St :=
  match a with
  | Settled r => (Settled r, st)
  | Pending k => k st
  end.

(** A function resumed again and again with nothing in between. *)
Fixpoint finish {A} (a : Async A) (st : St) : Result A * St :=
  match a with
  | Settled r => (r, st)
  | Pending k => let (a', st') := k st in finish a' st'
  end.

Definition alone {A} (p : Proc A) : M A :=
  fun st => let (a, st') := p st in finish a st'.

Declare Scope async_scope.
Delimit Scope async_scope with async.
Notation "x <- p ;; k" := (pbind p (fun x => k))
  (at level 61, p at next level, right associativity) : async_scope.
Notation "p ;; k" := (pbind p (fun _ => k))
  (at level 61, right associativity) : async_scope.

Section Methods.

Variable rt : Runtime.

#[local] Open Scope async_scope.

Definition connectToRabbitMQ : Proc unit :=
  s <- sync this ;;
  match rabbitmq (config s) with
  | None => sync (ret tt)
  | Some rc =>
      ptry
        (c <- await (sync (call (EvConnect (rc_url rc))
                             (fun t => amqp_connect rt t (rc_url rc)))) ;;
         ch <- await (sync (bind (assign (with_connection (Some c)))
                              (fun _ =>
                                 call (EvCreateChannel c)
                                   (fun t => conn_createChannel rt t c)))) ;;
         sync (assign (with_channel (Some ch))) ;;
         match rc_prefetch rc with
         | Some n =>
             if truthy_number n
             then await (sync (call (EvPrefetch ch n)
                                 (fun t => chan_prefetch rt t ch n)))
             else sync (ret tt)
         | None => sync (ret tt)
         end ;;
         sync (bind this (fun s' =>
                 match connection s' with
                 | Some c' =>
                     bind (call (EvOn c' "error") (fun _ => Ok tt)) (fun _ =>
                     bind (call (EvOn c' "close") (fun _ => Ok tt)) (fun _ =>
                     logger_log "Connected to RabbitMQ successfully"))
                 | None => throw (null_deref "on")
                 end)))
        (fun error =>
           sync (bind (logger_error "Failed to connect to RabbitMQ:" error)
                   (fun _ => throw error)))
  end.

Definition onModuleInit : Proc unit :=
  s <- sync this ;;
  if rabbitMQEnabled s && isSome (rabbitmq (config s))
  then await connectToRabbitMQ
  else sync (ret tt).

Definition disconnect : Proc unit :=
  ptry
    (s <- sync this ;;
     match channel s with
     | Some ch =>
         await (sync (call (EvChannelClose ch) (fun t => chan_close rt t ch)))
         ;; sync (assign (with_channel None))
     | None => sync (ret tt)
     end ;;
     s <- sync this ;;
     match connection s with
     | Some c =>
         await (sync (call (EvConnectionClose c)
                        (fun t => conn_close rt t c))) ;;
         sync (assign (with_connection None))
     | None => sync (ret tt)
     end ;;
     sync (logger_log "Disconnected from RabbitMQ"))
    (fun error =>
       sync (logger_error "Error disconnecting from RabbitMQ:" error)).

Definition onModuleDestroy : Proc unit := await disconnect.

Definition ensureConnection : Proc unit :=
  s <- sync this ;;
  if negb (rabbitMQEnabled s)
  then sync (throw (mkError "Error" "RabbitMQ is not configured"))
  else
    if negb (isSome (connection s)) || negb (isSome (channel s))
    then await connectToRabbitMQ
    else sync (ret tt).

Definition sendToQueue (queueName : string) (message : JsValue)
    (options : option MessageOptions) : Proc bool :=
  await ensureConnection ;;
  sync
    (try_catch
       (bind (lift (JSON_stringify rt message)) (fun json =>
        bind (lift (Buffer_from json)) (fun messageBuffer =>
        bind this (fun s =>
        match channel s with
        | Some ch =>
            call
              (EvSendToQueue ch queueName messageBuffer
                 (publishOptions options))
              (fun t =>
                 chan_sendToQueue rt t ch queueName messageBuffer
                   (publishOptions options))
        | None => throw (null_deref "sendToQueue")
        end))))
       (fun error =>
          bind
            (logger_error
               ("Error sending message to queue " ++ queueName ++ ":")%string
               error)
            (fun _ => throw error))).

Definition publishToExchange (exchangeName routingKey : string)
    (message : JsValue) (options : option MessageOptions) : Proc bool :=
  await ensureConnection ;;
  sync
    (try_catch
       (bind (lift (JSON_stringify rt message)) (fun json =>
        bind (lift (Buffer_from json)) (fun messageBuffer =>
        bind this (fun s =>
        match channel s with
        | Some ch =>
            call
              (EvPublish ch exchangeName routingKey messageBuffer
                 (publishOptions options))
              (fun t =>
                 chan_publish rt t ch exchangeName routingKey messageBuffer
                   (publishOptions options))
        | None => throw (null_deref "publish")
        end))))
       (fun error =>
          bind
            (logger_error
               ("Error publishing message to exchange " ++ exchangeName
                ++ ":")%string
               error)
            (fun _ => throw error))).

Definition emitEvent (eventName : string) (data : JsValue)
    (options : option MessageOptions) : Proc unit :=
  sync (logger_log ("Event emitted: " ++ eventName)%string) ;;
  s <- sync this ;;
  if rabbitMQEnabled s
  then
    ptry
      (await (sendToQueue ("events." ++ eventName)%string data options) ;;
       sync (ret tt))
      (fun error =>
         sync
           (logger_error
              ("Failed to send event " ++ eventName ++ " to RabbitMQ:")%string
              error))
  else sync (ret tt).

Definition createQueue (queueName : string) (options : option QueueOptions)
    : Proc unit :=
  await ensureConnection ;;
  s <- sync this ;;
  match channel s with
  | Some ch =>
      await (sync (call (EvAssertQueue ch queueName (queueOptions options))
                     (fun t =>
                        chan_assertQueue rt t ch queueName
                          (queueOptions options))))
  | None => sync (throw (null_deref "assertQueue"))
  end.

Definition createExchange (exchangeName : string) (options : ExchangeOptions)
    : Proc unit :=
  await ensureConnection ;;
  s <- sync this ;;
  match channel s with
  | Some ch =>
      await (sync (call
                     (EvAssertExchange ch exchangeName (xo_type options)
                        (exchangeOptions options))
                     (fun t =>
                        chan_assertExchange rt t ch exchangeName
                          (xo_type options) (exchangeOptions options))))
  | None => sync (throw (null_deref "assertExchange"))
  end.

Definition consume (queueName : string) (handler : MessageHandler)
    (options : option ConsumeOptions) : Proc string :=
  await ensureConnection ;;
  s <- sync this ;;
  match channel s with
  | Some ch =>
      await (sync (call (EvConsume ch queueName (consumeOptions options))
                     (fun t =>
                        chan_consume rt t ch queueName
                          (consumeOptions options))))
  | None => sync (throw (null_deref "consume"))
  end.

End Methods.

End Interleaved.

(** ** Scenarios *)

Module Scenarios.

(** A connected service on which a consumer was registered and which was
    then shut down. *)
Definition torn_down : St :=
  snd (perform Doubles.happy OpModuleDestroy
         (snd (perform Doubles.happy
                 (OpConsume "user-notifications" Doubles.acking None)
                 Doubles.connected))).

(** The options object [{ persistent: undefined }]. *)
Definition undefined_persistent : MessageOptions :=
  {| mo_queue := Missing; mo_exchange := Missing; mo_routingKey := Missing;
     mo_persistent := Undefined; mo_priority := Missing;
     mo_expiration := Missing; mo_headers := Missing |}.

(** A profile with [prefetch: NaN]. *)
Definition nan_prefetch_profile : RabbitMQConfig :=
  {| rc_url := "amqp://localhost:5672"; rc_queue := None; rc_exchange := None;
     rc_routingKey := None; rc_exchangeType := None; rc_durable := None;
     rc_persistent := None; rc_prefetch := Some PrimFloat.nan |}.

(** [disconnect()] and [sendToQueue()] called in the same turn on a
    connected service, neither awaited.  [disconnect] runs up to its
    [await this.channel.close()]; [sendToQueue] runs up to its
    [await this.ensureConnection()]; [disconnect] is resumed first, then
    [sendToQueue]. *)
Definition disconnect_started : Interleaved.Async unit * St :=
  Interleaved.disconnect Doubles.happy Doubles.connected.

Definition send_started : Interleaved.Async bool * St :=
  Interleaved.sendToQueue Doubles.happy "q" (JObject []) None
    (snd disconnect_started).

Definition disconnect_resumed : Interleaved.Async unit * St :=
  Interleaved.resume (fst disconnect_started) (snd send_started).

Definition send_resumed : Interleaved.Async bool * St :=
  Interleaved.resume (fst send_started) (snd disconnect_resumed).

(** Two first uses started in the same turn on a fresh enabled service, so
    that both dial.  The first runs to its end; a shutdown starts and
    closes the first channel; the second dial is granted; the shutdown
    closes the first connection and ends; the second use runs on. *)
Definition first_use : Interleaved.Async unit * St :=
  Interleaved.ensureConnection Doubles.happy (constructor Doubles.enabled, []).

Definition second_use : Interleaved.Async unit * St :=
  Interleaved.ensureConnection Doubles.happy (snd first_use).

Definition first_use_done : Result unit * St :=
  Interleaved.finish (fst first_use) (snd second_use).

Definition shutdown_started : Interleaved.Async unit * St :=
  Interleaved.disconnect Doubles.happy (snd first_use_done).

Definition shutdown_channel_closed : Interleaved.Async unit * St :=
  Interleaved.resume (fst shutdown_started) (snd shutdown_started).

Definition second_use_dialed : Interleaved.Async unit * St :=
  Interleaved.resume (fst second_use) (snd shutdown_channel_closed).

Definition shutdown_done : Interleaved.Async unit * St :=
  Interleaved.resume (fst shutdown_channel_closed) (snd second_use_dialed).

Definition second_use_done : Result unit * St :=
  Interleaved.finish (fst second_use_dialed) (snd shutdown_done).

End Scenarios.

(** * Properties *)

(** ** Symbolic execution of method bodies *)

Ltac unfold_monad :=
  unfold discard, logger_log, logger_warn, logger_error, bind, ret, throw,
    try_catch, this, assign, lift, call in *.

(** Split on the scrutinee of a match in the goal, innermost first. *)
Ltac split_match :=
  match goal with
  | |- context [match ?x with _ => _ end] =>
      lazymatch x with
      | context [match _ with _ => _ end] => fail
      | _ => destruct x eqn:?
      end
  end.

(** ** The configuration never changes *)

Lemma keeps_ret A (a : A) : keeps_config (ret a).
Proof. intros st; split; reflexivity. Qed.

Lemma keeps_throw A e : keeps_config (@throw A e).
Proof. intros st; split; reflexivity. Qed.

Lemma keeps_this : keeps_config this.
Proof. intros st; split; reflexivity. Qed.

Lemma keeps_lift A (r : Result A) : keeps_config (lift r).
Proof. intros st; split; reflexivity. Qed.

Lemma keeps_call A ev (answer : Trace -> Result A) :
  keeps_config (call ev answer).
Proof. intros st; split; reflexivity. Qed.

Lemma keeps_with_connection c : keeps_config (assign (with_connection c)).
Proof. intros st; split; reflexivity. Qed.

Lemma keeps_with_channel ch : keeps_config (assign (with_channel ch)).
Proof. intros st; split; reflexivity. Qed.

Lemma keeps_bind A B (m : M A) (k : A -> M B) :
  keeps_config m -> (forall a, keeps_config (k a)) -> keeps_config (bind m k).
Proof.
  intros Hm Hk st. unfold bind.
  destruct (Hm st) as [H1 H2].
  destruct (m st) as [[a | e] st1]; cbn [fst snd] in *.
  - destruct (Hk a st1) as [H3 H4]. split; congruence.
  - split; assumption.
Qed.

Lemma keeps_try_catch A (m : M A) (h : JsError -> M A) :
  keeps_config m -> (forall e, keeps_config (h e)) ->
  keeps_config (try_catch m h).
Proof.
  intros Hm Hh st. unfold try_catch.
  destruct (Hm st) as [H1 H2].
  destruct (m st) as [[a | e] st1]; cbn [fst snd] in *.
  - split; assumption.
  - destruct (Hh e st1) as [H3 H4]. split; congruence.
Qed.

Ltac keeps_step :=
  first
    [ apply keeps_ret | apply keeps_throw | apply keeps_this
    | apply keeps_lift | apply keeps_call
    | apply keeps_with_connection | apply keeps_with_channel
    | apply keeps_bind; [ | intro ]
    | apply keeps_try_catch; [ | intro ]
    | match goal with
      | |- keeps_config (match ?x with _ => _ end) => destruct x
      end
    | assumption ].

Ltac keeps := repeat keeps_step.

Section Frame.

Variable rt : Runtime.

Lemma keeps_connectToRabbitMQ : keeps_config (connectToRabbitMQ rt).
Proof. unfold connectToRabbitMQ, logger_log, logger_error. keeps. Qed.

Lemma keeps_disconnect : keeps_config (disconnect rt).
Proof. unfold disconnect, logger_log, logger_error. keeps. Qed.

Lemma keeps_ensureConnection : keeps_config (ensureConnection rt).
Proof.
  pose proof keeps_connectToRabbitMQ.
  unfold ensureConnection. keeps.
Qed.

Lemma keeps_sendToQueue q m o : keeps_config (sendToQueue rt q m o).
Proof.
  pose proof keeps_ensureConnection.
  unfold sendToQueue, logger_error. keeps.
Qed.

Lemma keeps_publishToExchange x k m o :
  keeps_config (publishToExchange rt x k m o).
Proof.
  pose proof keeps_ensureConnection.
  unfold publishToExchange, logger_error. keeps.
Qed.

Lemma keeps_ack msg : keeps_config (ack rt msg).
Proof. unfold ack. keeps. Qed.

Lemma keeps_nack msg r : keeps_config (nack rt msg r).
Proof. unfold nack. keeps. Qed.

Lemma keeps_runHandler msg h : keeps_config (runHandler rt msg h).
Proof.
  induction h as [r | e | k IH | requeue k IH]; cbn [runHandler].
  - apply keeps_ret.
  - apply keeps_throw.
  - intros st. destruct (keeps_ack msg st) as [H1 H2].
    destruct (ack rt msg st) as [r st1]; cbn [fst snd] in *.
    destruct (IH r st1) as [H3 H4]. split; congruence.
  - intros st. destruct (keeps_nack msg requeue st) as [H1 H2].
    destruct (nack rt msg requeue st) as [r st1]; cbn [fst snd] in *.
    destruct (IH r st1) as [H3 H4]. split; congruence.
Qed.

Lemma keeps_perform op : keeps_config (perform rt op).
Proof.
  pose proof keeps_connectToRabbitMQ.
  pose proof keeps_disconnect.
  pose proof keeps_ensureConnection.
  destruct op; cbn [perform];
    unfold discard, onModuleInit, onModuleDestroy, emitEvent, createQueue,
      createExchange, consume, deliveryCallback, connectionErrorObserver,
      connectionCloseObserver, isConnected, isRabbitMQEnabled,
      logger_log, logger_warn, logger_error;
    keeps;
    first [ apply keeps_sendToQueue | apply keeps_publishToExchange
          | apply keeps_runHandler ].
Qed.

(** In every reachable state the object still holds the configuration it
    was built with, and the flag says whether that held a profile. *)
Lemma reachable_config cfg st :
  reachable rt cfg st ->
  rabbitmq (config (fst st)) = supplied cfg /\
  rabbitMQEnabled (fst st) = isSome (supplied cfg).
Proof.
  induction 1 as [ | st op Hr [IH1 IH2]].
  - destruct cfg as [c | ]; split; reflexivity.
  - destruct (keeps_perform op st) as [H1 H2]. split; congruence.
Qed.

End Frame.

(** ** The two queries *)

Lemma connected_reachable :
  reachable Doubles.happy Doubles.enabled Doubles.connected.
Proof. apply reach_step. apply reach_new. Qed.

(** C7.  In every reachable state, [isRabbitMQEnabled()] answers whether
    a rabbitmq profile was given to the constructor, whatever the
    connectivity; [isConnected()] answers true exactly when the service is
    enabled and both the cached connection and the cached channel are
    there; neither query touches the fields or asks anything of the broker;
    and [isConnected()] is false whenever [isRabbitMQEnabled()] is. *)
Theorem queries_on_reachable_states (rt : Runtime)
    (cfg : option EventsConfig) (st : St) (Hreach : reachable rt cfg st) :
  isRabbitMQEnabled st = (Ok (isSome (supplied cfg)), st) /\
  isConnected st =
    (Ok (isSome (supplied cfg) && isSome (connection (fst st))
         && isSome (channel (fst st))), st) /\
  (forall b, isConnected st = (Ok b, st) ->
     b = true <->
     isSome (supplied cfg) = true /\ connection (fst st) <> None /\
     channel (fst st) <> None) /\
  (isRabbitMQEnabled st = (Ok false, st) -> isConnected st = (Ok false, st)).
Proof.
  destruct (reachable_config rt cfg st Hreach) as [_ Hen].
  assert (Hq : isConnected st =
    (Ok (isSome (supplied cfg) && isSome (connection (fst st))
         && isSome (channel (fst st))), st)).
  { unfold isConnected. unfold_monad. rewrite Hen. reflexivity. }
  split; [ | split; [ exact Hq | split ] ].
  - unfold isRabbitMQEnabled. unfold_monad. rewrite Hen. reflexivity.
  - intros b Hb. rewrite Hq in Hb. injection Hb as Hb. subst b.
    destruct (supplied cfg), (connection (fst st)), (channel (fst st));
      cbn; intuition congruence.
  - intros Hoff. rewrite Hq.
    unfold isRabbitMQEnabled in Hoff. unfold_monad.
    injection Hoff as Hoff. rewrite Hen in Hoff. rewrite Hoff. reflexivity.
Qed.

(** A connected service and a service built without configuration. *)
Lemma queries_on_reachable_states_witness :
  reachable Doubles.happy Doubles.enabled Doubles.connected /\
  isRabbitMQEnabled Doubles.connected = (Ok true, Doubles.connected) /\
  isConnected Doubles.connected = (Ok true, Doubles.connected).
Proof.
  split.
  - apply connected_reachable.
  - destruct (queries_on_reachable_states Doubles.happy Doubles.enabled
                Doubles.connected connected_reachable)
      as (H1 & H2 & _).
    split; [ exact H1 | exact H2 ].
Defined.

(** ** Dialing *)

Ltac flatten_trace := repeat rewrite <- app_assoc in *; cbn [app] in *.

Section Dialing.

Variable rt : Runtime.

(** With a profile, [connectToRabbitMQ] dials its url first, and never
    again. *)
Lemma connectToRabbitMQ_dials_once s t rc :
  rabbitmq (config s) = Some rc ->
  exists rest,
    snd (snd (connectToRabbitMQ rt (s, t))) = t ++ EvConnect (rc_url rc) :: rest /\
    dials rest = 0.
Proof.
  intros Hrc. unfold connectToRabbitMQ. unfold_monad. cbn [fst snd].
  rewrite Hrc.
  repeat (split_match; cbn [fst snd] in * );
    flatten_trace; eexists; split; try reflexivity; reflexivity.
Qed.

(** A refused dial is logged and thrown on; the fields are untouched. *)
Lemma connectToRabbitMQ_refused s t rc e :
  rabbitmq (config s) = Some rc ->
  amqp_connect rt t (rc_url rc) = Throw e ->
  connectToRabbitMQ rt (s, t) =
    (Throw e,
     (s, t ++ [EvConnect (rc_url rc);
               EvLog LevelError "Failed to connect to RabbitMQ:" (Some e)])).
Proof.
  intros Hrc He. unfold connectToRabbitMQ. unfold_monad. cbn [fst snd].
  rewrite Hrc. cbn [fst snd]. rewrite He. cbn [fst snd].
  flatten_trace. reflexivity.
Qed.

(** When [connectToRabbitMQ] resolves, the fields hold the connection the
    dial returned and the channel opened on it. *)
Lemma connectToRabbitMQ_resolves s t rc st' :
  rabbitmq (config s) = Some rc ->
  connectToRabbitMQ rt (s, t) = (Ok tt, st') ->
  exists c ch,
    amqp_connect rt t (rc_url rc) = Ok c /\
    conn_createChannel rt (t ++ [EvConnect (rc_url rc)]) c = Ok ch /\
    connection (fst st') = Some c /\ channel (fst st') = Some ch.
Proof.
  intros Hrc. unfold connectToRabbitMQ. unfold_monad. cbn [fst snd].
  rewrite Hrc.
  repeat (split_match; cbn [fst snd] in * ); intros Heq;
    try discriminate; injection Heq as Heq; subst st';
    repeat match goal with
           | H : (_, _) = (_, _) |- _ => injection H as ? ?; subst
           end;
    try discriminate;
    do 2 eexists; repeat split; first [ reflexivity | eassumption ].
Qed.

End Dialing.

(** ** [ensureConnection] *)

Section EnsureConnection.

Variable rt : Runtime.

Lemma ensureConnection_disabled s t :
  rabbitMQEnabled s = false ->
  ensureConnection rt (s, t) = (Throw notConfigured, (s, t)).
Proof.
  intros H. unfold ensureConnection. unfold_monad. cbn [fst snd].
  rewrite H. reflexivity.
Qed.

Lemma ensureConnection_cached s t c ch :
  rabbitMQEnabled s = true -> connection s = Some c -> channel s = Some ch ->
  ensureConnection rt (s, t) = (Ok tt, (s, t)).
Proof.
  intros H1 H2 H3. unfold ensureConnection. unfold_monad. cbn [fst snd].
  rewrite H1, H2, H3. reflexivity.
Qed.

Lemma ensureConnection_redials s t :
  rabbitMQEnabled s = true -> connection s = None \/ channel s = None ->
  ensureConnection rt (s, t) = connectToRabbitMQ rt (s, t).
Proof.
  intros H1 H2. unfold ensureConnection. unfold_monad. cbn [fst snd].
  rewrite H1. destruct H2 as [H2 | H2]; rewrite H2; cbn.
  - reflexivity.
  - rewrite orb_true_r. reflexivity.
Qed.

(** On a reachable state, a resolved [ensureConnection] leaves a channel. *)
Lemma ensureConnection_resolved_channel cfg st st' :
  reachable rt cfg st ->
  ensureConnection rt st = (Ok tt, st') ->
  exists ch, channel (fst st') = Some ch.
Proof.
  intros Hreach Hok. destruct st as [s t].
  destruct (reachable_config rt cfg (s, t) Hreach) as [Hcfg Hen].
  cbn [fst] in *.
  destruct (rabbitMQEnabled s) eqn:Hon.
  - destruct (connection s) as [c | ] eqn:Hc;
      [ destruct (channel s) as [ch | ] eqn:Hch | ].
    + rewrite (ensureConnection_cached s t c ch Hon Hc Hch) in Hok.
      injection Hok as <-. exists ch. exact Hch.
    + rewrite ensureConnection_redials in Hok by (auto).
      destruct (supplied cfg) as [rc | ] eqn:Hs; [ | discriminate ].
      destruct (connectToRabbitMQ_resolves rt s t rc st' Hcfg Hok)
        as (c' & ch' & _ & _ & _ & H).
      exists ch'. exact H.
    + rewrite ensureConnection_redials in Hok by (auto).
      destruct (supplied cfg) as [rc | ] eqn:Hs; [ | discriminate ].
      destruct (connectToRabbitMQ_resolves rt s t rc st' Hcfg Hok)
        as (c' & ch' & _ & _ & _ & H).
      exists ch'. exact H.
  - rewrite (ensureConnection_disabled s t Hon) in Hok. discriminate.
Qed.

End EnsureConnection.

(** C3.  On a reachable state: built without a profile, [ensureConnection()]
    throws the not-configured error and asks nothing of the broker; with a
    profile and both handles cached it returns at once, the trace as it
    was; with a profile and a handle missing it dials the profile's url
    first and never a second time, and when that dial is refused the error
    is logged and thrown to the caller, fields untouched. *)
Theorem ensureConnection_cases (rt : Runtime) (cfg : option EventsConfig)
    (s : EventsService) (t : Trace) (Hreach : reachable rt cfg (s, t)) :
  (supplied cfg = None ->
   ensureConnection rt (s, t) = (Throw notConfigured, (s, t))) /\
  (supplied cfg <> None -> connection s <> None -> channel s <> None ->
   ensureConnection rt (s, t) = (Ok tt, (s, t))) /\
  (forall rc, supplied cfg = Some rc ->
   connection s = None \/ channel s = None ->
   (exists rest,
      snd (snd (ensureConnection rt (s, t))) =
        t ++ EvConnect (rc_url rc) :: rest /\
      dials rest = 0) /\
   (forall e, amqp_connect rt t (rc_url rc) = Throw e ->
      ensureConnection rt (s, t) =
        (Throw e,
         (s, t ++ [EvConnect (rc_url rc);
                   EvLog LevelError "Failed to connect to RabbitMQ:"
                     (Some e)])))).
Proof.
  destruct (reachable_config rt cfg (s, t) Hreach) as [Hcfg Hen].
  cbn [fst] in *.
  repeat split.
  - intros Hnone. rewrite Hnone in Hen.
    apply ensureConnection_disabled. exact Hen.
  - intros Hsome Hc Hch.
    destruct (connection s) as [c | ] eqn:Ec; [ | congruence ].
    destruct (channel s) as [ch | ] eqn:Ech; [ | congruence ].
    destruct (supplied cfg); [ | congruence ].
    eapply ensureConnection_cached; eauto.
  - rewrite H in Hen, Hcfg.
    rewrite ensureConnection_redials by assumption.
    apply connectToRabbitMQ_dials_once. exact Hcfg.
  - intros e He. rewrite H in Hen, Hcfg.
    rewrite ensureConnection_redials by assumption.
    apply connectToRabbitMQ_refused; assumption.
Qed.

(** An enabled service that has never connected, against a broker nobody
    listens at. *)
Lemma ensureConnection_cases_witness :
  reachable Doubles.refusing Doubles.enabled (constructor Doubles.enabled, []) /\
  ensureConnection Doubles.refusing (constructor Doubles.enabled, []) =
    (Throw (mkError "Error" "connect ECONNREFUSED"),
     (constructor Doubles.enabled,
      [EvConnect "amqp://localhost:5672";
       EvLog LevelError "Failed to connect to RabbitMQ:"
         (Some (mkError "Error" "connect ECONNREFUSED"))])).
Proof.
  split.
  - apply reach_new.
  - destruct (ensureConnection_cases Doubles.refusing Doubles.enabled
                (constructor Doubles.enabled) []
                (reach_new Doubles.refusing Doubles.enabled))
      as (_ & _ & H).
    destruct (H Doubles.profile eq_refl (or_introl eq_refl)) as [_ Hrefused].
    exact (Hrefused (mkError "Error" "connect ECONNREFUSED") eq_refl).
Defined.



(** ** [disconnect] *)

Section Disconnect.

Variable rt : Runtime.

Lemma disconnect_channel_close_throws s t ch e :
  channel s = Some ch -> chan_close rt t ch = Throw e ->
  disconnect rt (s, t) =
    (Ok tt, (s, t ++ [EvChannelClose ch; disconnect_error_log e])).
Proof.
  intros Hch He. unfold disconnect. unfold_monad. cbn [fst snd].
  rewrite Hch. cbn [fst snd]. rewrite He. cbn [fst snd].
  flatten_trace. reflexivity.
Qed.

Lemma disconnect_connection_close_throws s t c e :
  channel_closes rt s t -> connection s = Some c ->
  conn_close rt (t ++ channel_teardown s) c = Throw e ->
  disconnect rt (s, t) =
    (Ok tt,
     (with_channel None s,
      t ++ channel_teardown s ++ [EvConnectionClose c; disconnect_error_log e])).
Proof.
  unfold channel_closes, channel_teardown.
  intros Hch Hc He. unfold disconnect. unfold_monad. cbn [fst snd].
  destruct (channel s) as [ch | ] eqn:Ech; cbn [fst snd].
  - rewrite Hch. cbn [fst snd with_channel connection]. rewrite Hc.
    cbn [fst snd]. rewrite He. cbn [fst snd].
    flatten_trace. reflexivity.
  - rewrite Hc. cbn [fst snd]. rewrite app_nil_r in He. rewrite He.
    cbn [fst snd]. flatten_trace.
    destruct s; cbn in *; subst; reflexivity.
Qed.

Lemma disconnect_clean s t :
  channel_closes rt s t -> connection_closes rt s t ->
  disconnect rt (s, t) =
    (Ok tt,
     (with_connection None (with_channel None s),
      t ++ teardown_plan s ++ [disconnected_log])).
Proof.
  unfold channel_closes, connection_closes, teardown_plan, channel_teardown,
    connection_teardown.
  intros Hch Hc. unfold disconnect. unfold_monad. cbn [fst snd].
  destruct (channel s) as [ch | ] eqn:Ech; cbn [fst snd].
  - rewrite Hch. cbn [fst snd with_channel connection].
    destruct (connection s) as [c | ] eqn:Ec; cbn [fst snd].
    + rewrite Hc. cbn [fst snd]. flatten_trace. reflexivity.
    + flatten_trace.
      destruct s; cbn in *; subst; reflexivity.
  - destruct (connection s) as [c | ] eqn:Ec; cbn [fst snd].
    + rewrite app_nil_r in Hc. rewrite Hc. cbn [fst snd]. flatten_trace.
      destruct s; cbn in *; subst; reflexivity.
    + flatten_trace. destruct s; cbn in *; subst; reflexivity.
Qed.

End Disconnect.

(** C4.  [disconnect()] never throws.  The close calls it makes are an
    initial stretch of the plan "channel, then connection" for the handles
    it finds (so the channel is closed before the connection, and a handle
    that is already null is simply skipped).  Either the whole plan went
    through, both fields are null and the success line is logged; or one
    close threw, that error is logged, and the call still resolves. *)
Theorem disconnect_closes_channel_first_and_never_throws (rt : Runtime)
    (s : EventsService) (t : Trace) :
  (exists s' k final,
     disconnect rt (s, t) =
       (Ok tt, (s', t ++ firstn k (teardown_plan s) ++ [final])) /\
     (final = disconnected_log /\ k = length (teardown_plan s) /\
      channel s' = None /\ connection s' = None
      \/
      exists e, final = disconnect_error_log e /\
                1 <= k <= length (teardown_plan s))) /\
  (forall ch e,
     channel s = Some ch -> chan_close rt t ch = Throw e ->
     disconnect rt (s, t) =
       (Ok tt, (s, t ++ [EvChannelClose ch; disconnect_error_log e]))) /\
  (forall c e,
     channel_closes rt s t -> connection s = Some c ->
     conn_close rt (t ++ channel_teardown s) c = Throw e ->
     disconnect rt (s, t) =
       (Ok tt,
        (with_channel None s,
         t ++ channel_teardown s ++
           [EvConnectionClose c; disconnect_error_log e]))) /\
  (channel_closes rt s t -> connection_closes rt s t ->
   disconnect rt (s, t) =
     (Ok tt,
      (with_connection None (with_channel None s),
       t ++ teardown_plan s ++ [disconnected_log]))).
Proof.
  split; [ | split; [ | split ] ].
  - assert (Hcases :
      (exists ch e, channel s = Some ch /\ chan_close rt t ch = Throw e) \/
      channel_closes rt s t).
    { unfold channel_closes. destruct (channel s) as [ch | ]; [ | now right ].
      destruct (chan_close rt t ch) as [[] | e] eqn:E;
        [ now right | left; eauto ]. }
    destruct Hcases as [(ch & e & Hch & He) | Hchan].
    + exists s, 1, (disconnect_error_log e).
      rewrite (disconnect_channel_close_throws rt s t ch e Hch He).
      unfold teardown_plan, channel_teardown. rewrite Hch. cbn.
      split; [ reflexivity | ].
      right. exists e. split; [ reflexivity | lia ].
    + assert (Hcases :
        (exists c e, connection s = Some c /\
                     conn_close rt (t ++ channel_teardown s) c = Throw e) \/
        connection_closes rt s t).
      { unfold connection_closes.
        destruct (connection s) as [c | ]; [ | now right ].
        destruct (conn_close rt (t ++ channel_teardown s) c) as [[] | e] eqn:E;
          [ now right | left; eauto ]. }
      destruct Hcases as [(c & e & Hc & He) | Hconn].
      * exists (with_channel None s), (length (teardown_plan s)),
          (disconnect_error_log e).
        rewrite (disconnect_connection_close_throws rt s t c e Hchan Hc He).
        rewrite firstn_all.
        unfold teardown_plan, connection_teardown. rewrite Hc.
        split; [ rewrite <- app_assoc; reflexivity | ].
        right. exists e. split; [ reflexivity | ].
        rewrite length_app. cbn. lia.
      * exists (with_connection None (with_channel None s)),
          (length (teardown_plan s)), disconnected_log.
        rewrite (disconnect_clean rt s t Hchan Hconn).
        rewrite firstn_all.
        split; [ reflexivity | ]. left. repeat split.
  - apply disconnect_channel_close_throws.
  - apply disconnect_connection_close_throws.
  - apply disconnect_clean.
Qed.

(** Tearing down a connected service: both handles closed, channel first. *)
Lemma disconnect_closes_channel_first_and_never_throws_witness :
  channel_closes Doubles.happy (fst Doubles.connected) (snd Doubles.connected)
  /\ connection_closes Doubles.happy (fst Doubles.connected)
       (snd Doubles.connected)
  /\ disconnect Doubles.happy Doubles.connected =
       (Ok tt,
        (constructor Doubles.enabled,
         snd Doubles.connected ++
           [EvChannelClose {| chan_id := 1 |};
            EvConnectionClose {| conn_id := 0 |};
            disconnected_log])).
Proof.
  split; [ reflexivity | split; [ reflexivity | ] ].
  destruct (disconnect_closes_channel_first_and_never_throws Doubles.happy
              (fst Doubles.connected) (snd Doubles.connected))
    as (_ & _ & _ & H).
  exact (H eq_refl eq_refl).
Defined.

(** ** Re-dialing after [disconnect] *)

(** C8 holds of the claim and not of the code when the channel's
    [close()] throws (the channel is already closed, as after a dropped
    connection).  [disconnect()] sets each field to null only after its
    close has resolved, inside the [try]; the throw skips both
    assignments and the connection's close, the [catch] only logs, and
    [disconnect()] resolves with both handles still cached.  The next
    [ensureConnection()] then returns without dialing, on the handle left
    over from before the shutdown. *)
Lemma ensureConnection_after_failed_teardown_reuses_handle :
  fst (disconnect Doubles.closed_channel
         (snd (onModuleInit Doubles.closed_channel
                 (constructor Doubles.enabled, [])))) = Ok tt /\
  channel
    (fst (snd (disconnect Doubles.closed_channel
                 (snd (onModuleInit Doubles.closed_channel
                         (constructor Doubles.enabled, []))))))
  = Some {| chan_id := 1 |} /\
  ensureConnection Doubles.closed_channel
    (snd (disconnect Doubles.closed_channel
            (snd (onModuleInit Doubles.closed_channel
                    (constructor Doubles.enabled, [])))))
  = (Ok tt,
     snd (disconnect Doubles.closed_channel
            (snd (onModuleInit Doubles.closed_channel
                    (constructor Doubles.enabled, []))))).
Proof. repeat split. Qed.

(** The path of [disconnect()] on which the shutdown does what it is
    written for.  On a reachable state of an enabled service, if the
    channel step of [disconnect()] goes through (no channel cached, or its
    close resolves), then [disconnect()] resolves with the channel field
    null, the next [ensureConnection()] dials the profile's url first (and
    once), and if it resolves the fields hold the connection that dial
    returned and the channel opened on it. *)
Theorem ensureConnection_redials_after_disconnect (rt : Runtime)
    (cfg : option EventsConfig) (s : EventsService) (t : Trace)
    (rc : RabbitMQConfig)
    (Hreach : reachable rt cfg (s, t))
    (Hrc : supplied cfg = Some rc)
    (Hchan : channel_closes rt s t) :
  fst (disconnect rt (s, t)) = Ok tt /\
  channel (fst (snd (disconnect rt (s, t)))) = None /\
  (exists rest,
     snd (snd (ensureConnection rt (snd (disconnect rt (s, t))))) =
       snd (snd (disconnect rt (s, t))) ++ EvConnect (rc_url rc) :: rest /\
     dials rest = 0) /\
  (forall st3,
     ensureConnection rt (snd (disconnect rt (s, t))) = (Ok tt, st3) ->
     exists c ch,
       amqp_connect rt (snd (snd (disconnect rt (s, t)))) (rc_url rc) = Ok c /\
       conn_createChannel rt
         (snd (snd (disconnect rt (s, t))) ++ [EvConnect (rc_url rc)]) c
       = Ok ch /\
       connection (fst st3) = Some c /\ channel (fst st3) = Some ch).
Proof.
  destruct (reachable_config rt cfg (s, t) Hreach) as [Hcfg Hen].
  cbn [fst] in *. rewrite Hrc in Hcfg, Hen. cbn in Hen.
  assert (Hd : exists s2 t2,
            disconnect rt (s, t) = (Ok tt, (s2, t2)) /\
            channel s2 = None /\ rabbitmq (config s2) = Some rc /\
            rabbitMQEnabled s2 = true).
  { pose proof (disconnect_connection_close_throws rt s t) as Hconn.
    pose proof (disconnect_clean rt s t) as Hclean.
    destruct (connection s) as [c | ] eqn:Ec.
    - destruct (conn_close rt (t ++ channel_teardown s) c) as [[] | e] eqn:E.
      + do 2 eexists. split.
        * apply Hclean; [ exact Hchan | ].
          unfold connection_closes. rewrite Ec. exact E.
        * cbn. auto.
      + do 2 eexists. split.
        * apply (Hconn c e Hchan eq_refl E).
        * cbn. auto.
    - do 2 eexists. split.
      + apply Hclean; [ exact Hchan | ].
        unfold connection_closes. rewrite Ec. exact I.
      + cbn. auto. }
  destruct Hd as (s2 & t2 & Hd & Hch2 & Hcfg2 & Hen2).
  rewrite Hd. cbn [fst snd].
  rewrite (ensureConnection_redials rt s2 t2 Hen2 (or_intror Hch2)).
  split; [ reflexivity | split; [ exact Hch2 | split ] ].
  - apply connectToRabbitMQ_dials_once. exact Hcfg2.
  - intros st3 Hok.
    apply (connectToRabbitMQ_resolves rt s2 t2 rc st3 Hcfg2 Hok).
Qed.

(** A connected service, torn down cleanly, dials again on next use. *)
Lemma ensureConnection_redials_after_disconnect_witness :
  reachable Doubles.happy Doubles.enabled Doubles.connected /\
  supplied Doubles.enabled = Some Doubles.profile /\
  channel_closes Doubles.happy (fst Doubles.connected) (snd Doubles.connected)
  /\ channel (fst (snd (disconnect Doubles.happy Doubles.connected))) = None
  /\ exists rest,
       snd (snd (ensureConnection Doubles.happy
                   (snd (disconnect Doubles.happy Doubles.connected)))) =
         snd (snd (disconnect Doubles.happy Doubles.connected)) ++
           EvConnect "amqp://localhost:5672" :: rest /\
       dials rest = 0.
Proof.
  split; [ apply connected_reachable | ].
  split; [ reflexivity | split; [ reflexivity | ] ].
  destruct (ensureConnection_redials_after_disconnect Doubles.happy
              Doubles.enabled (fst Doubles.connected) (snd Doubles.connected)
              Doubles.profile connected_reachable eq_refl eq_refl)
    as (_ & Hnull & Hdial & _).
  split; [ exact Hnull | exact Hdial ].
Defined.

(** ** The connection observers *)

(** C1, as stated, fails: after the close observer has fired on a connected
    service both handles are still cached, and the next
    [ensureConnection()] returns without dialing. *)
Lemma close_observer_keeps_cached_handle :
  connection (fst (snd (connectionCloseObserver Doubles.connected)))
  = Some {| conn_id := 0 |} /\
  channel (fst (snd (connectionCloseObserver Doubles.connected)))
  = Some {| chan_id := 1 |} /\
  ensureConnection Doubles.happy
    (snd (connectionCloseObserver Doubles.connected))
  = (Ok tt, snd (connectionCloseObserver Doubles.connected)).
Proof. repeat split. Qed.

(** C1, amended.  When the connection's close observer fires it logs a
    warning and nothing else: the cached connection and channel stay as
    they are (the error observer likewise only logs).  The next
    [ensureConnection()] on an enabled service with both handles cached
    therefore returns at once with no dial; it dials only when a cached
    handle is null. *)
Theorem close_observer_only_logs (rt : Runtime) (s : EventsService)
    (t : Trace) :
  connectionCloseObserver (s, t) =
    (Ok tt, (s, t ++ [EvLog LevelWarn "RabbitMQ connection closed" None])) /\
  (forall err,
     connectionErrorObserver err (s, t) =
       (Ok tt,
        (s, t ++ [EvLog LevelError "RabbitMQ connection error:" (Some err)])))
  /\
  (rabbitMQEnabled s = true -> connection s <> None -> channel s <> None ->
   ensureConnection rt (snd (connectionCloseObserver (s, t))) =
     (Ok tt, snd (connectionCloseObserver (s, t)))) /\
  (rabbitMQEnabled s = true -> connection s = None \/ channel s = None ->
   ensureConnection rt (snd (connectionCloseObserver (s, t))) =
     connectToRabbitMQ rt (snd (connectionCloseObserver (s, t)))).
Proof.
  split; [ reflexivity | split; [ reflexivity | split ] ].
  - intros Hen Hc Hch.
    destruct (connection s) as [c | ] eqn:Ec; [ | congruence ].
    destruct (channel s) as [ch | ] eqn:Ech; [ | congruence ].
    apply (ensureConnection_cached rt s _ c ch Hen Ec Ech).
  - intros Hen Hmiss. apply (ensureConnection_redials rt s _ Hen Hmiss).
Qed.

Lemma close_observer_only_logs_witness :
  rabbitMQEnabled (fst Doubles.connected) = true /\
  connection (fst Doubles.connected) <> None /\
  channel (fst Doubles.connected) <> None /\
  ensureConnection Doubles.happy
    (snd (connectionCloseObserver Doubles.connected))
  = (Ok tt, snd (connectionCloseObserver Doubles.connected)).
Proof.
  split; [ reflexivity | ].
  split; [ discriminate | split; [ discriminate | ] ].
  destruct (close_observer_only_logs Doubles.happy (fst Doubles.connected)
              (snd Doubles.connected))
    as (_ & _ & H & _).
  apply H; [ reflexivity | discriminate | discriminate ].
Defined.

(** ** What a computation adds to the trace *)

Section Emits.

Variable P : Event -> Prop.

Lemma emits_silent A (m : M A) :
  (forall st, snd (snd (m st)) = snd st) -> emits P m.
Proof.
  intros H st. exists []. rewrite H, app_nil_r. split; [ reflexivity | constructor ].
Qed.

Lemma emits_ret A (a : A) : emits P (ret a).
Proof. apply emits_silent. reflexivity. Qed.

Lemma emits_throw A e : emits P (@throw A e).
Proof. apply emits_silent. reflexivity. Qed.

Lemma emits_this : emits P this.
Proof. apply emits_silent. reflexivity. Qed.

Lemma emits_lift A (r : Result A) : emits P (lift r).
Proof. apply emits_silent. reflexivity. Qed.

Lemma emits_assign f : emits P (assign f).
Proof. apply emits_silent. reflexivity. Qed.

Lemma emits_call A ev (answer : Trace -> Result A) :
  P ev -> emits P (call ev answer).
Proof.
  intros H st. exists [ev]. split; [ reflexivity | ].
  constructor; [ exact H | constructor ].
Qed.

Lemma emits_then A B (m : M A) (k : Result A -> M B) :
  emits P m -> (forall r, emits P (k r)) ->
  emits P (fun st => let (r, st') := m st in k r st').
Proof.
  intros Hm Hk st. destruct (Hm st) as (n1 & E1 & F1).
  destruct (m st) as [r st1]. cbn [snd] in E1.
  destruct (Hk r st1) as (n2 & E2 & F2).
  exists (n1 ++ n2). rewrite E2, E1, app_assoc.
  split; [ reflexivity | ]. apply Forall_app. split; assumption.
Qed.

Lemma emits_bind A B (m : M A) (k : A -> M B) :
  emits P m -> (forall a, emits P (k a)) -> emits P (bind m k).
Proof.
  intros Hm Hk st. unfold bind. destruct (Hm st) as (n1 & E1 & F1).
  destruct (m st) as [[a | e] st1]; cbn [snd] in E1.
  - destruct (Hk a st1) as (n2 & E2 & F2).
    exists (n1 ++ n2). rewrite E2, E1, app_assoc.
    split; [ reflexivity | ]. apply Forall_app. split; assumption.
  - exists n1. split; assumption.
Qed.

Lemma emits_try_catch A (m : M A) (h : JsError -> M A) :
  emits P m -> (forall e, emits P (h e)) -> emits P (try_catch m h).
Proof.
  intros Hm Hh st. unfold try_catch. destruct (Hm st) as (n1 & E1 & F1).
  destruct (m st) as [[a | e] st1]; cbn [snd] in E1.
  - exists n1. split; assumption.
  - destruct (Hh e st1) as (n2 & E2 & F2).
    exists (n1 ++ n2). rewrite E2, E1, app_assoc.
    split; [ reflexivity | ]. apply Forall_app. split; assumption.
Qed.

End Emits.

Ltac emits_step :=
  first
    [ apply emits_ret | apply emits_throw | apply emits_this
    | apply emits_lift | apply emits_assign
    | apply emits_call; cbn; solve [ auto ]
    | apply emits_bind; [ | intro ]
    | apply emits_try_catch; [ | intro ]
    | match goal with
      | |- emits _ (match ?x with _ => _ end) => destruct x
      end
    | assumption ].

Ltac emits := repeat emits_step.

Section EmitsMethods.

Variable rt : Runtime.

Lemma connectToRabbitMQ_sends_nothing q :
  emits (sends_only_to q) (connectToRabbitMQ rt).
Proof. unfold connectToRabbitMQ, logger_log, logger_error. emits. Qed.

Lemma sendToQueue_sends_only_to q m o :
  emits (sends_only_to q) (sendToQueue rt q m o).
Proof.
  pose proof (connectToRabbitMQ_sends_nothing q).
  unfold sendToQueue, ensureConnection, logger_error. emits.
Qed.

Lemma ack_resolves_only m : emits (resolves_only m) (ack rt m).
Proof. unfold ack. emits. Qed.

Lemma nack_resolves_only m r : emits (resolves_only m) (nack rt m r).
Proof. unfold nack. emits. Qed.

Lemma runHandler_resolves_only m h :
  emits (resolves_only m) (runHandler rt m h).
Proof.
  induction h as [r | e | k IH | requeue k IH]; cbn [runHandler].
  - apply emits_ret.
  - apply emits_throw.
  - apply emits_then; [ apply ack_resolves_only | exact IH ].
  - apply emits_then; [ apply nack_resolves_only | exact IH ].
Qed.

Lemma deliveryCallback_resolves_only h m :
  emits (resolves_only m) (deliveryCallback rt h (Some m)).
Proof.
  unfold deliveryCallback, logger_error. emits.
  apply runHandler_resolves_only.
Qed.

(** The handler's run never assigns a field. *)
Lemma runHandler_fields m h st :
  fst (snd (runHandler rt m h st)) = fst st.
Proof.
  revert st.
  induction h as [r | e | k IH | requeue k IH]; intros st; cbn [runHandler].
  - reflexivity.
  - reflexivity.
  - assert (H : fst (snd (ack rt m st)) = fst st).
    { unfold ack. unfold_monad. destruct (channel (fst st)); reflexivity. }
    destruct (ack rt m st) as [r st1]. rewrite IH. exact H.
  - assert (H : fst (snd (nack rt m requeue st)) = fst st).
    { unfold nack. unfold_monad.
      destruct requeue as [[ | ] | ]; destruct (channel (fst st));
        reflexivity. }
    destruct (nack rt m requeue st) as [r st1]. rewrite IH. exact H.
Qed.

End EmitsMethods.

(** ** [emitEvent] *)

(** C2.  For every event name, payload, options, fields and broker,
    [emitEvent] resolves.  Disabled, it logs the event and asks nothing of
    the broker.  Enabled, it is [sendToQueue] on the queue ["events." ++
    eventName] with any throw of that call logged and swallowed; whatever
    it sends, it sends to that queue; and with both handles cached and a
    payload that serializes, the send is issued on the cached channel. *)
Theorem emitEvent_never_throws (rt : Runtime) (eventName : string)
    (data : JsValue) (options : option MessageOptions) (s : EventsService)
    (t : Trace) :
  (exists st', emitEvent rt eventName data options (s, t) = (Ok tt, st')) /\
  (rabbitMQEnabled s = false ->
   emitEvent rt eventName data options (s, t) =
     (Ok tt, (s, t ++ [emitted_log eventName]))) /\
  (rabbitMQEnabled s = true ->
   emitEvent rt eventName data options (s, t) =
     match
       sendToQueue rt ("events." ++ eventName)%string data options
         (s, t ++ [emitted_log eventName])
     with
     | (Ok _, st') => (Ok tt, st')
     | (Throw e, st') =>
         (Ok tt, (fst st', snd st' ++ [send_failed_log eventName e]))
     end) /\
  (exists new,
     snd (snd (emitEvent rt eventName data options (s, t))) =
       t ++ emitted_log eventName :: new /\
     Forall (sends_only_to ("events." ++ eventName)%string) new) /\
  (forall c ch json,
     rabbitMQEnabled s = true ->
     connection s = Some c -> channel s = Some ch ->
     JSON_stringify rt data = Ok (Some json) ->
     exists tail,
       emitEvent rt eventName data options (s, t) =
         (Ok tt,
          (s, t ++ emitted_log eventName
                :: EvSendToQueue ch ("events." ++ eventName)%string json
                     (publishOptions options)
                :: tail))).
Proof.
  assert (Hoff : rabbitMQEnabled s = false ->
    emitEvent rt eventName data options (s, t) =
      (Ok tt, (s, t ++ [emitted_log eventName]))).
  { intros Hen. unfold emitEvent. unfold_monad. cbn [fst snd].
    rewrite Hen. reflexivity. }
  assert (Hon : rabbitMQEnabled s = true ->
    emitEvent rt eventName data options (s, t) =
      match
        sendToQueue rt ("events." ++ eventName)%string data options
          (s, t ++ [emitted_log eventName])
      with
      | (Ok _, st') => (Ok tt, st')
      | (Throw e, st') =>
          (Ok tt, (fst st', snd st' ++ [send_failed_log eventName e]))
      end).
  { intros Hen. unfold emitEvent, emitted_log, send_failed_log.
    unfold_monad. cbn [fst snd]. rewrite Hen.
    destruct (sendToQueue rt _ data options _) as [[b | e] st'];
      reflexivity. }
  split; [ | split; [ exact Hoff | split; [ exact Hon | split ] ] ].
  - destruct (rabbitMQEnabled s) eqn:Hen.
    + rewrite (Hon eq_refl).
      destruct (sendToQueue rt ("events." ++ eventName)%string data options
                  (s, t ++ [emitted_log eventName])) as [[b | e] st'];
        eexists; reflexivity.
    + rewrite (Hoff eq_refl). eexists; reflexivity.
  - destruct (rabbitMQEnabled s) eqn:Hen.
    + rewrite (Hon eq_refl).
      destruct (sendToQueue_sends_only_to rt
                  ("events." ++ eventName)%string data options
                  (s, t ++ [emitted_log eventName])) as (n & E & F).
      destruct (sendToQueue rt ("events." ++ eventName)%string data options
                  (s, t ++ [emitted_log eventName])) as [[b | e] st'];
        cbn [fst snd] in *; rewrite E.
      * exists n. rewrite <- app_assoc. split; [ reflexivity | exact F ].
      * exists (n ++ [send_failed_log eventName e]).
        repeat rewrite <- app_assoc. split; [ reflexivity | ].
        apply Forall_app. split; [ exact F | ].
        constructor; [ exact I | constructor ].
    + rewrite (Hoff eq_refl). exists []. split; [ reflexivity | constructor ].
  - intros c ch json Hen Hc Hch Hjson. rewrite (Hon Hen).
    unfold sendToQueue. unfold bind at 1.
    rewrite (ensureConnection_cached rt s _ c ch Hen Hc Hch).
    unfold_monad. cbn [fst snd]. rewrite Hjson. cbn [Buffer_from fst snd].
    rewrite Hch. cbn [fst snd].
    destruct (chan_sendToQueue rt (t ++ [emitted_log eventName]) ch
                ("events." ++ eventName)%string json (publishOptions options))
      as [b | e]; cbn [fst snd]; flatten_trace; eexists; reflexivity.
Qed.

(** The three states of the claim: disabled, enabled but unreachable, and
    connected. *)
Lemma emitEvent_never_throws_witness :
  emitEvent Doubles.happy "test" (JObject [("data", JString "test")]) None
    (constructor None, [])
  = (Ok tt, (constructor None, [emitted_log "test"])) /\
  emitEvent Doubles.refusing "test" (JObject []) None
    (constructor Doubles.enabled, [])
  = (Ok tt,
     (constructor Doubles.enabled,
      [emitted_log "test"; EvConnect "amqp://localhost:5672";
       EvLog LevelError "Failed to connect to RabbitMQ:"
         (Some (mkError "Error" "connect ECONNREFUSED"));
       send_failed_log "test" (mkError "Error" "connect ECONNREFUSED")])) /\
  exists tail,
    emitEvent Doubles.happy "test" (JObject []) None Doubles.connected =
      (Ok tt,
       (fst Doubles.connected,
        snd Doubles.connected ++
          emitted_log "test"
          :: EvSendToQueue {| chan_id := 1 |} "events.test" "{}"
               (publishOptions None)
          :: tail)).
Proof.
  split; [ | split ].
  - destruct (emitEvent_never_throws Doubles.happy "test"
                (JObject [("data", JString "test")]) None
                (constructor None) []) as (_ & H & _).
    exact (H eq_refl).
  - destruct (emitEvent_never_throws Doubles.refusing "test" (JObject [])
                None (constructor Doubles.enabled) []) as (_ & _ & H & _).
    exact (H eq_refl).
  - destruct (emitEvent_never_throws Doubles.happy "test" (JObject []) None
                (fst Doubles.connected) (snd Doubles.connected))
      as (_ & _ & _ & _ & H).
    exact (H {| conn_id := 0 |} {| chan_id := 1 |} "{}"
             eq_refl eq_refl eq_refl eq_refl).
Defined.

(** ** [sendToQueue] and [publishToExchange] *)

(** The [persistent] key of the options object handed to the channel. *)
Lemma publishOptions_persistent options :
  mo_persistent (publishOptions options) =
    match options with
    | None => Value true
    | Some o =>
        match mo_persistent o with
        | Missing => Value true
        | own => own
        end
    end.
Proof.
  destruct options as [o | ]; [ | reflexivity ].
  cbn. destruct (mo_persistent o); reflexivity.
Qed.

(** What [sendToQueue] and [publishToExchange] hand to the channel, as
    the code does it.  For every queue, exchange, routing key, payload,
    options and state: the options handed to the channel carry
    [persistent: true] when the caller's options have no [persistent]
    property of their own, and otherwise whatever that property holds
    (also [undefined]); a throw of [ensureConnection] is the throw of
    [sendToQueue] and of [publishToExchange]; once [ensureConnection] has
    resolved, the body handed to the channel is
    [Buffer.from(JSON.stringify(message))], a [true] or [false] from the
    channel is returned as it is, and a throw of the channel or of the
    serialization is logged and thrown on to the caller. *)
Theorem sendToQueue_publishToExchange_delegate (rt : Runtime)
    (queueName exchangeName routingKey : string) (message : JsValue)
    (options : option MessageOptions) (st : St) :
  mo_persistent (publishOptions options) =
    match options with
    | None => Value true
    | Some o =>
        match mo_persistent o with
        | Missing => Value true
        | own => own
        end
    end /\
  (forall e st1,
     ensureConnection rt st = (Throw e, st1) ->
     sendToQueue rt queueName message options st = (Throw e, st1) /\
     publishToExchange rt exchangeName routingKey message options st =
       (Throw e, st1)) /\
  (forall s1 t1 ch json body,
     ensureConnection rt st = (Ok tt, (s1, t1)) ->
     channel s1 = Some ch ->
     JSON_stringify rt message = Ok json -> Buffer_from json = Ok body ->
     sendToQueue rt queueName message options st =
       match
         chan_sendToQueue rt t1 ch queueName body (publishOptions options)
       with
       | Ok b =>
           (Ok b,
            (s1, t1 ++ [EvSendToQueue ch queueName body
                          (publishOptions options)]))
       | Throw e =>
           (Throw e,
            (s1, t1 ++ [EvSendToQueue ch queueName body
                          (publishOptions options);
                        send_error_log queueName e]))
       end /\
     publishToExchange rt exchangeName routingKey message options st =
       match
         chan_publish rt t1 ch exchangeName routingKey body
           (publishOptions options)
       with
       | Ok b =>
           (Ok b,
            (s1, t1 ++ [EvPublish ch exchangeName routingKey body
                          (publishOptions options)]))
       | Throw e =>
           (Throw e,
            (s1, t1 ++ [EvPublish ch exchangeName routingKey body
                          (publishOptions options);
                        publish_error_log exchangeName e]))
       end) /\
  (forall s1 t1 e,
     ensureConnection rt st = (Ok tt, (s1, t1)) ->
     (JSON_stringify rt message = Throw e \/
      exists json, JSON_stringify rt message = Ok json /\
                   Buffer_from json = Throw e) ->
     sendToQueue rt queueName message options st =
       (Throw e, (s1, t1 ++ [send_error_log queueName e])) /\
     publishToExchange rt exchangeName routingKey message options st =
       (Throw e, (s1, t1 ++ [publish_error_log exchangeName e]))).
Proof.
  split; [ apply publishOptions_persistent | split; [ | split ] ].
  - intros e st1 He.
    split; [ unfold sendToQueue | unfold publishToExchange ];
      unfold bind at 1; rewrite He; reflexivity.
  - intros s1 t1 ch json body Hok Hch Hjson Hbuf.
    split; [ unfold sendToQueue | unfold publishToExchange ];
      unfold bind at 1; rewrite Hok;
      unfold send_error_log, publish_error_log;
      unfold_monad; cbn [fst snd];
      rewrite Hjson; cbn [fst snd]; rewrite Hbuf; cbn [fst snd];
      rewrite Hch; cbn [fst snd].
    + destruct (chan_sendToQueue rt t1 ch queueName body
                  (publishOptions options)); cbn [fst snd];
        flatten_trace; reflexivity.
    + destruct (chan_publish rt t1 ch exchangeName routingKey body
                  (publishOptions options)); cbn [fst snd];
        flatten_trace; reflexivity.
  - intros s1 t1 e Hok Hfail.
    split; [ unfold sendToQueue | unfold publishToExchange ];
      unfold bind at 1; rewrite Hok;
      unfold send_error_log, publish_error_log;
      unfold_monad; cbn [fst snd];
      destruct Hfail as [Hjson | (json & Hjson & Hbuf)];
      rewrite Hjson; cbn [fst snd]; try rewrite Hbuf; reflexivity.
Qed.

(** A payload sent and published through a connected service, and a send
    against a broker nobody listens at. *)
Lemma sendToQueue_publishToExchange_delegate_witness :
  sendToQueue Doubles.happy "q" (JObject []) None
    Doubles.connected
  = (Ok true,
     (fst Doubles.connected,
      snd Doubles.connected ++
        [EvSendToQueue {| chan_id := 1 |} "q" "{}" (publishOptions None)])) /\
  publishToExchange Doubles.happy "user-events" "user.updated"
    (JObject []) None Doubles.connected
  = (Ok true,
     (fst Doubles.connected,
      snd Doubles.connected ++
        [EvPublish {| chan_id := 1 |} "user-events" "user.updated" "{}"
           (publishOptions None)])) /\
  fst (sendToQueue Doubles.refusing "q" (JObject []) None
         (constructor Doubles.enabled, []))
  = Throw (mkError "Error" "connect ECONNREFUSED").
Proof.
  destruct (sendToQueue_publishToExchange_delegate Doubles.happy "q"
              "user-events" "user.updated" (JObject []) None
              Doubles.connected) as (_ & _ & H & _).
  destruct (H (fst Doubles.connected) (snd Doubles.connected)
              {| chan_id := 1 |} (Some "{}") "{}"
              eq_refl eq_refl eq_refl eq_refl) as [H1 H2].
  destruct (sendToQueue_publishToExchange_delegate Doubles.refusing "q"
              "x" "k" (JObject []) None (constructor Doubles.enabled, []))
    as (_ & H3 & _).
  destruct (H3 (mkError "Error" "connect ECONNREFUSED")
              (snd (ensureConnection Doubles.refusing
                      (constructor Doubles.enabled, []))) eq_refl)
    as [H4 _].
  split; [ exact H1 | split; [ exact H2 | ] ].
  rewrite H4. reflexivity.
Defined.

(** ** The delivery callback of [consume] *)

Section Delivery.

Variable rt : Runtime.

Lemma deliveryCallback_undecodable handler m s t ch e :
  channel s = Some ch ->
  JSON_parse rt (Buffer_toString (msg_content m)) = Throw e ->
  deliveryCallback rt handler (Some m) (s, t) = rejected rt ch m e s t.
Proof.
  intros Hch Hparse. unfold deliveryCallback, rejected, processing_error_log.
  unfold_monad. cbn [fst snd]. rewrite Hparse. cbn [fst snd].
  rewrite Hch. cbn [fst snd]. flatten_trace. reflexivity.
Qed.

Lemma deliveryCallback_decoded handler m s t ch content :
  channel s = Some ch ->
  JSON_parse rt (Buffer_toString (msg_content m)) = Ok content ->
  deliveryCallback rt handler (Some m) (s, t) =
    match runHandler rt m (handler (messageInfo m content)) (s, t) with
    | (Ok _, st') => (Ok tt, st')
    | (Throw e, st') => rejected rt ch m e s (snd st')
    end.
Proof.
  intros Hch Hparse. unfold deliveryCallback, rejected, processing_error_log.
  unfold_monad. cbn [fst snd]. rewrite Hparse. cbn [fst snd].
  fold (messageInfo m content).
  pose proof (runHandler_fields rt m (handler (messageInfo m content)) (s, t))
    as Hs.
  destruct (runHandler rt m (handler (messageInfo m content)) (s, t))
    as [[r | e] [s' t']]; cbn [fst snd] in *.
  - reflexivity.
  - subst s'. rewrite Hch. cbn [fst snd]. flatten_trace. reflexivity.
Qed.

Lemma ack_bound m s t ch :
  channel s = Some ch ->
  ack rt m (s, t) = (chan_ack rt t ch m, (s, t ++ [EvAck ch m])).
Proof.
  intros Hch. unfold ack. unfold_monad. cbn [fst snd]. rewrite Hch.
  reflexivity.
Qed.

Lemma nack_bound m s t ch requeue :
  channel s = Some ch ->
  nack rt m requeue (s, t) =
    if truthy_opt_bool requeue
    then (chan_nack rt t ch m false true, (s, t ++ [EvNack ch m false true]))
    else (chan_reject rt t ch m false, (s, t ++ [EvReject ch m false])).
Proof.
  intros Hch. unfold nack. unfold_monad. cbn [fst snd].
  destruct requeue as [[ | ] | ]; cbn; rewrite Hch; reflexivity.
Qed.

Lemma consumeOptions_noAck options :
  co_noAck (consumeOptions options) =
    match options with
    | None => Value false
    | Some o =>
        match co_noAck o with
        | Missing => Value false
        | own => own
        end
    end.
Proof.
  destruct options as [o | ]; [ | reflexivity ].
  cbn. destruct (co_noAck o); reflexivity.
Qed.

End Delivery.

(** C5, amended.  For a delivery [m] arriving while a channel is cached
    ([this.channel] is not null): if its body
    does not decode, the error is logged, [m] is rejected on that channel
    with [requeue = false], and the outcome is the same whatever the
    handler is (the handler takes no part); if it decodes, the handler runs
    on the decoded content with [m]'s fields and properties, its [ack] and
    [nack] act on [m] (ack; nack with requeue; reject without), and nothing
    the callback adds to the trace resolves any other delivery; and
    [consume] registers with [noAck: false] unless the caller's options
    carry a [noAck] of their own. *)
Theorem deliveryCallback_decodes_before_dispatch (rt : Runtime)
    (handler : MessageHandler) (m : ConsumeMessage) (s : EventsService)
    (t : Trace) (ch : Channel) (Hch : channel s = Some ch) :
  (forall e,
     JSON_parse rt (Buffer_toString (msg_content m)) = Throw e ->
     forall anyHandler,
       deliveryCallback rt anyHandler (Some m) (s, t) =
         (chan_reject rt (t ++ [processing_error_log e]) ch m false,
          (s, t ++ [processing_error_log e; EvReject ch m false]))) /\
  (forall content,
     JSON_parse rt (Buffer_toString (msg_content m)) = Ok content ->
     deliveryCallback rt handler (Some m) (s, t) =
       match
         runHandler rt m
           (handler
              {| info_content := content; info_fields := msg_fields m;
                 info_properties := msg_properties m |}) (s, t)
       with
       | (Ok _, st') => (Ok tt, st')
       | (Throw e, st') => rejected rt ch m e s (snd st')
       end) /\
  (forall t',
     ack rt m (s, t') = (chan_ack rt t' ch m, (s, t' ++ [EvAck ch m])) /\
     nack rt m (Some true) (s, t') =
       (chan_nack rt t' ch m false true, (s, t' ++ [EvNack ch m false true]))
     /\
     nack rt m (Some false) (s, t') =
       (chan_reject rt t' ch m false, (s, t' ++ [EvReject ch m false])) /\
     nack rt m None (s, t') =
       (chan_reject rt t' ch m false, (s, t' ++ [EvReject ch m false]))) /\
  (exists new,
     snd (snd (deliveryCallback rt handler (Some m) (s, t))) = t ++ new /\
     Forall (resolves_only m) new) /\
  (forall options,
     co_noAck (consumeOptions options) =
       match options with
       | None => Value false
       | Some o =>
           match co_noAck o with
           | Missing => Value false
           | own => own
           end
       end) /\
  (forall c queueName options,
     rabbitMQEnabled s = true -> connection s = Some c ->
     consume rt queueName handler options (s, t) =
       (chan_consume rt t ch queueName (consumeOptions options),
        (s, t ++ [EvConsume ch queueName (consumeOptions options)]))).
Proof.
  split; [ | split; [ | split; [ | split; [ | split ] ] ] ].
  - intros e Hparse anyHandler.
    apply (deliveryCallback_undecodable rt anyHandler m s t ch e Hch Hparse).
  - intros content Hparse.
    apply (deliveryCallback_decoded rt handler m s t ch content Hch Hparse).
  - intros t'. repeat split.
    + apply ack_bound. exact Hch.
    + apply (nack_bound rt m s t' ch (Some true) Hch).
    + apply (nack_bound rt m s t' ch (Some false) Hch).
    + apply (nack_bound rt m s t' ch None Hch).
  - apply (deliveryCallback_resolves_only rt handler m (s, t)).
  - apply consumeOptions_noAck.
  - intros c queueName options Hen Hc.
    unfold consume. unfold bind at 1.
    rewrite (ensureConnection_cached rt s t c ch Hen Hc Hch).
    unfold_monad. cbn [fst snd]. rewrite Hch. reflexivity.
Qed.

(** A malformed body and a well-formed one, delivered to a connected
    service whose handler acknowledges. *)
Lemma deliveryCallback_decodes_before_dispatch_witness :
  channel (fst Doubles.connected) = Some {| chan_id := 1 |} /\
  deliveryCallback Doubles.happy Doubles.acking
    (Some (Doubles.delivery "{not json")) Doubles.connected
  = (Ok tt,
     (fst Doubles.connected,
      snd Doubles.connected ++
        [processing_error_log
           (mkError "SyntaxError" "Unexpected token in JSON");
         EvReject {| chan_id := 1 |} (Doubles.delivery "{not json") false]))
  /\
  deliveryCallback Doubles.happy Doubles.acking
    (Some (Doubles.delivery "true")) Doubles.connected
  = (Ok tt,
     (fst Doubles.connected,
      snd Doubles.connected ++
        [EvAck {| chan_id := 1 |} (Doubles.delivery "true")])).
Proof.
  split; [ reflexivity | ].
  destruct (deliveryCallback_decodes_before_dispatch Doubles.happy
              Doubles.acking (Doubles.delivery "{not json")
              (fst Doubles.connected) (snd Doubles.connected)
              {| chan_id := 1 |} eq_refl) as (H1 & _).
  destruct (deliveryCallback_decodes_before_dispatch Doubles.happy
              Doubles.acking (Doubles.delivery "true")
              (fst Doubles.connected) (snd Doubles.connected)
              {| chan_id := 1 |} eq_refl) as (_ & H2 & _).
  split.
  - exact (H1 (mkError "SyntaxError" "Unexpected token in JSON") eq_refl
             Doubles.acking).
  - exact (H2 (JBool true) eq_refl).
Defined.

(** C10, amended.  For a delivery [m] whose body decodes, arriving while a
    channel is cached ([this.channel] is not null): if the handler's run
    throws synchronously, at once or after
    some calls of [ack] / [nack], the error is logged and [m] is rejected
    on the cached channel with [requeue = false]; if the handler instead
    returns a promise that rejects, the callback returns normally in the
    state the handler left, with no log line and no reject added. *)
Theorem deliveryCallback_rejects_on_handler_throw (rt : Runtime)
    (handler : MessageHandler) (m : ConsumeMessage) (s : EventsService)
    (t : Trace) (ch : Channel) (content : JsValue)
    (Hch : channel s = Some ch)
    (Hparse : JSON_parse rt (Buffer_toString (msg_content m)) = Ok content) :
  (forall e st',
     runHandler rt m (handler (messageInfo m content)) (s, t) = (Throw e, st')
     ->
     deliveryCallback rt handler (Some m) (s, t) =
       (chan_reject rt (snd st' ++ [processing_error_log e]) ch m false,
        (s, snd st' ++ [processing_error_log e; EvReject ch m false]))) /\
  (forall e,
     handler (messageInfo m content) = HThrow e ->
     deliveryCallback rt handler (Some m) (s, t) =
       (chan_reject rt (t ++ [processing_error_log e]) ch m false,
        (s, t ++ [processing_error_log e; EvReject ch m false]))) /\
  (forall e st',
     runHandler rt m (handler (messageInfo m content)) (s, t) =
       (Ok (ReturnsPromise (Throw e)), st') ->
     deliveryCallback rt handler (Some m) (s, t) = (Ok tt, st')).
Proof.
  pose proof (deliveryCallback_decoded rt handler m s t ch content Hch Hparse)
    as Hrun.
  split; [ | split ].
  - intros e st' Hthrow. rewrite Hrun, Hthrow. reflexivity.
  - intros e Hh. rewrite Hrun, Hh. reflexivity.
  - intros e st' Hlater. rewrite Hrun, Hlater. reflexivity.
Qed.

(** A handler that throws at once, and one whose promise rejects. *)
Lemma deliveryCallback_rejects_on_handler_throw_witness :
  channel (fst Doubles.connected) = Some {| chan_id := 1 |} /\
  deliveryCallback Doubles.happy Doubles.throwing
    (Some (Doubles.delivery "true")) Doubles.connected
  = (Ok tt,
     (fst Doubles.connected,
      snd Doubles.connected ++
        [processing_error_log (mkError "Error" "handler failed");
         EvReject {| chan_id := 1 |} (Doubles.delivery "true") false])) /\
  deliveryCallback Doubles.happy Doubles.rejecting_later
    (Some (Doubles.delivery "true")) Doubles.connected
  = (Ok tt, Doubles.connected).
Proof.
  split; [ reflexivity | ].
  destruct (deliveryCallback_rejects_on_handler_throw Doubles.happy
              Doubles.throwing (Doubles.delivery "true")
              (fst Doubles.connected) (snd Doubles.connected)
              {| chan_id := 1 |} (JBool true) eq_refl eq_refl)
    as (_ & H1 & _).
  destruct (deliveryCallback_rejects_on_handler_throw Doubles.happy
              Doubles.rejecting_later (Doubles.delivery "true")
              (fst Doubles.connected) (snd Doubles.connected)
              {| chan_id := 1 |} (JBool true) eq_refl eq_refl)
    as (_ & _ & H2).
  split.
  - exact (H1 (mkError "Error" "handler failed") eq_refl).
  - exact (H2 (mkError "Error" "handler failed") Doubles.connected eq_refl).
Defined.

(** * Further properties of the service *)

(** ** [connectToRabbitMQ], step by step *)

Section Connecting.

Variable rt : Runtime.

Lemma connectToRabbitMQ_without_profile s t :
  rabbitmq (config s) = None ->
  connectToRabbitMQ rt (s, t) = (Ok tt, (s, t)).
Proof.
  intros H. unfold connectToRabbitMQ. unfold_monad. cbn [fst snd].
  rewrite H. reflexivity.
Qed.

Lemma connectToRabbitMQ_success s t rc c ch :
  rabbitmq (config s) = Some rc ->
  amqp_connect rt t (rc_url rc) = Ok c ->
  conn_createChannel rt (t ++ [EvConnect (rc_url rc)]) c = Ok ch ->
  prefetch_resolves rt rc (t ++ [EvConnect (rc_url rc); EvCreateChannel c]) ch
  ->
  connectToRabbitMQ rt (s, t) =
    (Ok tt,
     (with_channel (Some ch) (with_connection (Some c) s),
      t ++ [EvConnect (rc_url rc); EvCreateChannel c] ++ prefetch_calls rc ch
        ++ [EvOn c "error"; EvOn c "close"; connected_log])).
Proof.
  intros Hrc Hc Hch Hpre.
  unfold connectToRabbitMQ, prefetch_resolves, prefetch_calls, connected_log
    in *.
  unfold_monad. cbn [fst snd]. rewrite Hrc. cbn [fst snd].
  rewrite Hc. cbn [fst snd]. rewrite Hch. cbn [fst snd].
  destruct (rc_prefetch rc) as [n | ]; [ destruct (truthy_number n) | ];
    cbn [fst snd].
  - rewrite <- app_assoc. cbn [app]. rewrite Hpre. cbn [fst snd].
    flatten_trace. reflexivity.
  - flatten_trace. reflexivity.
  - flatten_trace. reflexivity.
Qed.

Lemma connectToRabbitMQ_channel_refused s t rc c e :
  rabbitmq (config s) = Some rc ->
  amqp_connect rt t (rc_url rc) = Ok c ->
  conn_createChannel rt (t ++ [EvConnect (rc_url rc)]) c = Throw e ->
  connectToRabbitMQ rt (s, t) =
    (Throw e,
     (with_connection (Some c) s,
      t ++ [EvConnect (rc_url rc); EvCreateChannel c; connect_failed_log e])).
Proof.
  intros Hrc Hc Hch. unfold connectToRabbitMQ, connect_failed_log.
  unfold_monad. cbn [fst snd]. rewrite Hrc. cbn [fst snd].
  rewrite Hc. cbn [fst snd]. rewrite Hch. cbn [fst snd].
  flatten_trace. reflexivity.
Qed.

Lemma connectToRabbitMQ_prefetch_refused s t rc c ch n e :
  rabbitmq (config s) = Some rc ->
  amqp_connect rt t (rc_url rc) = Ok c ->
  conn_createChannel rt (t ++ [EvConnect (rc_url rc)]) c = Ok ch ->
  rc_prefetch rc = Some n -> truthy_number n = true ->
  chan_prefetch rt (t ++ [EvConnect (rc_url rc); EvCreateChannel c]) ch n
  = Throw e ->
  connectToRabbitMQ rt (s, t) =
    (Throw e,
     (with_channel (Some ch) (with_connection (Some c) s),
      t ++ [EvConnect (rc_url rc); EvCreateChannel c; EvPrefetch ch n;
            connect_failed_log e])).
Proof.
  intros Hrc Hc Hch Hn Htruthy Hpre.
  unfold connectToRabbitMQ, connect_failed_log.
  unfold_monad. cbn [fst snd]. rewrite Hrc. cbn [fst snd].
  rewrite Hc. cbn [fst snd]. rewrite Hch. cbn [fst snd].
  rewrite Hn, Htruthy. cbn [fst snd].
  rewrite <- app_assoc. cbn [app]. rewrite Hpre. cbn [fst snd].
  flatten_trace. reflexivity.
Qed.

Lemma connectToRabbitMQ_closes_nothing :
  emits no_close (connectToRabbitMQ rt).
Proof. unfold connectToRabbitMQ, logger_log, logger_error. emits. Qed.

(** A granted dial overwrites the [connection] field, whatever follows. *)
Lemma connectToRabbitMQ_stores_dialed_connection s t rc c :
  rabbitmq (config s) = Some rc ->
  amqp_connect rt t (rc_url rc) = Ok c ->
  connection (fst (snd (connectToRabbitMQ rt (s, t)))) = Some c.
Proof.
  intros Hrc Hc. unfold connectToRabbitMQ. unfold_monad. cbn [fst snd].
  rewrite Hrc. cbn [fst snd]. rewrite Hc. cbn [fst snd].
  repeat (split_match; cbn [fst snd] in * ); reflexivity.
Qed.

End Connecting.

(** X1.  When the dial and the channel are granted and the prefetch call,
    if one is due, resolves, [connectToRabbitMQ] caches exactly that
    connection and that channel, and what it asked, in order, is: the dial,
    the channel, the prefetch, the two observers on the new connection, the
    success line.  The prefetch call is made exactly when the profile's
    [prefetch] is a truthy number: no [prefetch], [0], [-0] and [NaN] all
    skip it; every other number is passed on. *)
Theorem connectToRabbitMQ_success_order (rt : Runtime) (s : EventsService)
    (t : Trace) (rc : RabbitMQConfig) (c : Connection) (ch : Channel)
    (Hrc : rabbitmq (config s) = Some rc)
    (Hc : amqp_connect rt t (rc_url rc) = Ok c)
    (Hch : conn_createChannel rt (t ++ [EvConnect (rc_url rc)]) c = Ok ch)
    (Hpre : prefetch_resolves rt rc
              (t ++ [EvConnect (rc_url rc); EvCreateChannel c]) ch) :
  connectToRabbitMQ rt (s, t) =
    (Ok tt,
     (with_channel (Some ch) (with_connection (Some c) s),
      t ++ [EvConnect (rc_url rc); EvCreateChannel c] ++ prefetch_calls rc ch
        ++ [EvOn c "error"; EvOn c "close"; connected_log])) /\
  (prefetch_calls rc ch = [] <->
   rc_prefetch rc = None \/
   exists n, rc_prefetch rc = Some n /\
             (PrimFloat.is_zero n = true \/ PrimFloat.is_nan n = true)) /\
  (forall n,
     rc_prefetch rc = Some n ->
     PrimFloat.is_zero n = false -> PrimFloat.is_nan n = false ->
     prefetch_calls rc ch = [EvPrefetch ch n]).
Proof.
  split; [ apply connectToRabbitMQ_success; assumption | split ].
  - unfold prefetch_calls, truthy_number.
    destruct (rc_prefetch rc) as [n | ]; [ | intuition ].
    destruct (PrimFloat.is_zero n) eqn:Hz; cbn [negb orb].
    + split; [ | reflexivity ]. intros _. right. exists n. auto.
    + destruct (PrimFloat.is_nan n) eqn:Hnan; cbn [negb orb].
      * split; [ | reflexivity ]. intros _. right. exists n. auto.
      * split; [ discriminate | ].
        intros [H | (n' & H & [H' | H'])]; [ discriminate | | ];
          injection H as H; subst n'; congruence.
  - intros n Hn Hz Hnan. unfold prefetch_calls, truthy_number.
    rewrite Hn, Hz, Hnan. reflexivity.
Qed.

(** Profiles with [prefetch: 0] and with [prefetch: NaN]: no prefetch
    call is made. *)
Lemma connectToRabbitMQ_success_order_witness :
  connectToRabbitMQ Doubles.happy
    (constructor (Some {| rabbitmq := Some Faults.zero_prefetch_profile |}), [])
  = (Ok tt,
     ({| connection := Some {| conn_id := 0 |};
         channel := Some {| chan_id := 1 |};
         config := {| rabbitmq := Some Faults.zero_prefetch_profile |};
         rabbitMQEnabled := true |},
      [EvConnect "amqp://localhost:5672"; EvCreateChannel {| conn_id := 0 |};
       EvOn {| conn_id := 0 |} "error"; EvOn {| conn_id := 0 |} "close";
       connected_log])) /\
  connectToRabbitMQ Doubles.happy
    (constructor (Some {| rabbitmq := Some Scenarios.nan_prefetch_profile |}),
     [])
  = (Ok tt,
     ({| connection := Some {| conn_id := 0 |};
         channel := Some {| chan_id := 1 |};
         config := {| rabbitmq := Some Scenarios.nan_prefetch_profile |};
         rabbitMQEnabled := true |},
      [EvConnect "amqp://localhost:5672"; EvCreateChannel {| conn_id := 0 |};
       EvOn {| conn_id := 0 |} "error"; EvOn {| conn_id := 0 |} "close";
       connected_log])).
Proof.
  destruct (connectToRabbitMQ_success_order Doubles.happy
              (constructor
                 (Some {| rabbitmq := Some Faults.zero_prefetch_profile |}))
              [] Faults.zero_prefetch_profile {| conn_id := 0 |}
              {| chan_id := 1 |} eq_refl eq_refl eq_refl I) as [H0 _].
  destruct (connectToRabbitMQ_success_order Doubles.happy
              (constructor
                 (Some {| rabbitmq := Some Scenarios.nan_prefetch_profile |}))
              [] Scenarios.nan_prefetch_profile {| conn_id := 0 |}
              {| chan_id := 1 |} eq_refl eq_refl eq_refl I) as [Hnan _].
  split; [ exact H0 | exact Hnan ].
Defined.

(** ** Failed connects and the next use *)

(** X2.  On an enabled service with no channel cached, when the dial is
    granted and opening the channel fails, [ensureConnection()] logs the
    error and throws it, and the connection it has just dialed stays in the
    [connection] field without a channel.  The next [ensureConnection()]
    dials the url again and asks for no close of a connection or a
    channel; when that second dial is granted, the [connection] field is
    overwritten with the new connection, so the service lets go of the
    first one without having closed it. *)
Theorem ensureConnection_after_channel_refused (rt : Runtime)
    (s : EventsService) (t : Trace) (rc : RabbitMQConfig) (c : Connection)
    (e : JsError)
    (Hen : rabbitMQEnabled s = true)
    (Hrc : rabbitmq (config s) = Some rc)
    (Hmiss : channel s = None)
    (Hc : amqp_connect rt t (rc_url rc) = Ok c)
    (Hch : conn_createChannel rt (t ++ [EvConnect (rc_url rc)]) c = Throw e) :
  ensureConnection rt (s, t) =
    (Throw e,
     (with_connection (Some c) s,
      t ++ [EvConnect (rc_url rc); EvCreateChannel c; connect_failed_log e]))
  /\
  exists rest,
    snd (snd (ensureConnection rt
                (with_connection (Some c) s,
                 t ++ [EvConnect (rc_url rc); EvCreateChannel c;
                       connect_failed_log e]))) =
      (t ++ [EvConnect (rc_url rc); EvCreateChannel c; connect_failed_log e])
        ++ EvConnect (rc_url rc) :: rest /\
    Forall no_close rest /\
    forall c2,
      amqp_connect rt
        (t ++ [EvConnect (rc_url rc); EvCreateChannel c;
               connect_failed_log e]) (rc_url rc) = Ok c2 ->
      connection
        (fst (snd (ensureConnection rt
                     (with_connection (Some c) s,
                      t ++ [EvConnect (rc_url rc); EvCreateChannel c;
                            connect_failed_log e])))) = Some c2.
Proof.
  split.
  - rewrite (ensureConnection_redials rt s t Hen (or_intror Hmiss)).
    apply connectToRabbitMQ_channel_refused; assumption.
  - remember (t ++ [EvConnect (rc_url rc); EvCreateChannel c;
                    connect_failed_log e]) as t1 eqn:Ht1.
    assert (Hredial :
      ensureConnection rt (with_connection (Some c) s, t1) =
      connectToRabbitMQ rt (with_connection (Some c) s, t1)).
    { apply ensureConnection_redials; [ exact Hen | right; exact Hmiss ]. }
    rewrite Hredial.
    destruct (connectToRabbitMQ_dials_once rt (with_connection (Some c) s) t1
                rc Hrc) as (rest & Erest & _).
    destruct (connectToRabbitMQ_closes_nothing rt
                (with_connection (Some c) s, t1)) as (new & Enew & Fnew).
    exists rest. split; [ exact Erest | split ].
    + pose proof (eq_trans (eq_sym Enew) Erest) as E. cbn [snd] in E.
      apply app_inv_head in E. subst new.
      inversion Fnew; assumption.
    + intros c2 Hc2.
      apply (connectToRabbitMQ_stores_dialed_connection rt
               (with_connection (Some c) s) t1 rc c2 Hrc Hc2).
Qed.

Lemma ensureConnection_after_channel_refused_witness :
  ensureConnection Faults.no_channel (constructor Doubles.enabled, []) =
    (Throw Faults.channel_max,
     (with_connection (Some {| conn_id := 0 |}) (constructor Doubles.enabled),
      [EvConnect "amqp://localhost:5672"; EvCreateChannel {| conn_id := 0 |};
       connect_failed_log Faults.channel_max])).
Proof.
  destruct (ensureConnection_after_channel_refused Faults.no_channel
              (constructor Doubles.enabled) [] Doubles.profile
              {| conn_id := 0 |} Faults.channel_max
              eq_refl eq_refl eq_refl eq_refl eq_refl) as [H _].
  exact H.
Defined.

(** X3.  On an enabled service with a handle missing, when the dial and
    the channel are granted and the configured prefetch call throws,
    [ensureConnection()] logs the error and throws it with both handles
    already cached and neither observer registered.  The service then
    reports itself connected, and the next [ensureConnection()] returns at
    once: it neither retries the prefetch nor registers the observers. *)
Theorem ensureConnection_after_prefetch_refused (rt : Runtime)
    (s : EventsService) (t : Trace) (rc : RabbitMQConfig) (c : Connection)
    (ch : Channel) (n : JsNumber) (e : JsError)
    (Hen : rabbitMQEnabled s = true)
    (Hrc : rabbitmq (config s) = Some rc)
    (Hmiss : connection s = None \/ channel s = None)
    (Hc : amqp_connect rt t (rc_url rc) = Ok c)
    (Hch : conn_createChannel rt (t ++ [EvConnect (rc_url rc)]) c = Ok ch)
    (Hn : rc_prefetch rc = Some n) (Htruthy : truthy_number n = true)
    (Hpre : chan_prefetch rt
              (t ++ [EvConnect (rc_url rc); EvCreateChannel c]) ch n
            = Throw e) :
  ensureConnection rt (s, t) =
    (Throw e,
     (with_channel (Some ch) (with_connection (Some c) s),
      t ++ [EvConnect (rc_url rc); EvCreateChannel c; EvPrefetch ch n;
            connect_failed_log e])) /\
  (forall t',
     isConnected (with_channel (Some ch) (with_connection (Some c) s), t') =
       (Ok true, (with_channel (Some ch) (with_connection (Some c) s), t')) /\
     ensureConnection rt
       (with_channel (Some ch) (with_connection (Some c) s), t') =
       (Ok tt, (with_channel (Some ch) (with_connection (Some c) s), t'))).
Proof.
  split.
  - rewrite (ensureConnection_redials rt s t Hen Hmiss).
    apply connectToRabbitMQ_prefetch_refused; assumption.
  - intros t'. split.
    + unfold isConnected. unfold_monad. cbn. rewrite Hen. reflexivity.
    + apply (ensureConnection_cached rt _ t' c ch); [ exact Hen | | ];
        reflexivity.
Qed.

Lemma ensureConnection_after_prefetch_refused_witness :
  ensureConnection Faults.no_prefetch (constructor Doubles.enabled, []) =
    (Throw Faults.not_allowed,
     (with_channel (Some {| chan_id := 1 |})
        (with_connection (Some {| conn_id := 0 |})
           (constructor Doubles.enabled)),
      [EvConnect "amqp://localhost:5672"; EvCreateChannel {| conn_id := 0 |};
       EvPrefetch {| chan_id := 1 |} 10%float;
       connect_failed_log Faults.not_allowed])).
Proof.
  destruct (ensureConnection_after_prefetch_refused Faults.no_prefetch
              (constructor Doubles.enabled) [] Doubles.profile
              {| conn_id := 0 |} {| chan_id := 1 |} 10%float
              Faults.not_allowed
              eq_refl eq_refl (or_introl eq_refl) eq_refl eq_refl eq_refl
              eq_refl eq_refl) as [H _].
  exact H.
Defined.

(** X4.  On an enabled service with a handle missing, a refused dial leaves
    the fields as they were, so the next [ensureConnection()] dials again;
    and if the broker then grants the dial, the channel and the prefetch,
    that call resolves with both handles cached.  Recovery from a failed
    dial happens on the next use, with no state to reset. *)
Theorem ensureConnection_retries_on_next_use (rt : Runtime)
    (s : EventsService) (t : Trace) (rc : RabbitMQConfig) (e : JsError)
    (Hen : rabbitMQEnabled s = true)
    (Hrc : rabbitmq (config s) = Some rc)
    (Hmiss : connection s = None \/ channel s = None)
    (Hrefused : amqp_connect rt t (rc_url rc) = Throw e) :
  ensureConnection rt (s, t) =
    (Throw e, (s, t ++ [EvConnect (rc_url rc); connect_failed_log e])) /\
  (exists rest,
     snd (snd (ensureConnection rt
                 (s, t ++ [EvConnect (rc_url rc); connect_failed_log e]))) =
       (t ++ [EvConnect (rc_url rc); connect_failed_log e])
         ++ EvConnect (rc_url rc) :: rest) /\
  (forall c ch,
     amqp_connect rt (t ++ [EvConnect (rc_url rc); connect_failed_log e])
       (rc_url rc) = Ok c ->
     conn_createChannel rt
       ((t ++ [EvConnect (rc_url rc); connect_failed_log e])
          ++ [EvConnect (rc_url rc)]) c = Ok ch ->
     prefetch_resolves rt rc
       ((t ++ [EvConnect (rc_url rc); connect_failed_log e])
          ++ [EvConnect (rc_url rc); EvCreateChannel c]) ch ->
     exists t2,
       ensureConnection rt
         (s, t ++ [EvConnect (rc_url rc); connect_failed_log e]) =
         (Ok tt, (with_channel (Some ch) (with_connection (Some c) s), t2))).
Proof.
  split; [ | split ].
  - rewrite (ensureConnection_redials rt s t Hen Hmiss).
    apply connectToRabbitMQ_refused; assumption.
  - rewrite (ensureConnection_redials rt s _ Hen Hmiss).
    destruct (connectToRabbitMQ_dials_once rt s
                (t ++ [EvConnect (rc_url rc); connect_failed_log e]) rc Hrc)
      as (rest & Erest & _).
    exists rest. exact Erest.
  - intros c ch Hc Hch Hpre.
    rewrite (ensureConnection_redials rt s _ Hen Hmiss).
    rewrite (connectToRabbitMQ_success rt s _ rc c ch Hrc Hc Hch Hpre).
    eexists. reflexivity.
Qed.

(** A broker that refuses the first dial and accepts the second. *)
Lemma ensureConnection_retries_on_next_use_witness :
  ensureConnection Faults.flaky (constructor Doubles.enabled, []) =
    (Throw (mkError "Error" "connect ECONNREFUSED"),
     (constructor Doubles.enabled,
      [EvConnect "amqp://localhost:5672";
       connect_failed_log (mkError "Error" "connect ECONNREFUSED")])) /\
  exists t2,
    ensureConnection Faults.flaky
      (constructor Doubles.enabled,
       [EvConnect "amqp://localhost:5672";
        connect_failed_log (mkError "Error" "connect ECONNREFUSED")]) =
      (Ok tt,
       (with_channel (Some {| chan_id := 3 |})
          (with_connection (Some {| conn_id := 2 |})
             (constructor Doubles.enabled)), t2)).
Proof.
  destruct (ensureConnection_retries_on_next_use Faults.flaky
              (constructor Doubles.enabled) [] Doubles.profile
              (mkError "Error" "connect ECONNREFUSED")
              eq_refl eq_refl (or_introl eq_refl) eq_refl) as (H1 & _ & H3).
  split; [ exact H1 | ].
  exact (H3 {| conn_id := 2 |} {| chan_id := 3 |} eq_refl eq_refl eq_refl).
Defined.

(** ** The explicit operations *)

(** X5.  On a service whose flag is off, each explicit operation
    ([sendToQueue], [publishToExchange], [createQueue], [createExchange],
    [consume]) throws the not-configured error and leaves the fields and
    the trace exactly as they were: no broker call, no log line, and the
    payload is not even serialized. *)
Theorem explicit_operations_fail_fast_when_disabled (rt : Runtime)
    (s : EventsService) (t : Trace)
    (Hoff : rabbitMQEnabled s = false) :
  (forall q m o,
     sendToQueue rt q m o (s, t) = (Throw notConfigured, (s, t))) /\
  (forall x k m o,
     publishToExchange rt x k m o (s, t) = (Throw notConfigured, (s, t))) /\
  (forall q o, createQueue rt q o (s, t) = (Throw notConfigured, (s, t))) /\
  (forall x o, createExchange rt x o (s, t) = (Throw notConfigured, (s, t)))
  /\
  (forall q h o, consume rt q h o (s, t) = (Throw notConfigured, (s, t))).
Proof.
  pose proof (ensureConnection_disabled rt s t Hoff) as Hthrow.
  repeat split; intros;
    [ unfold sendToQueue | unfold publishToExchange | unfold createQueue
    | unfold createExchange | unfold consume ];
    unfold bind at 1; rewrite Hthrow; reflexivity.
Qed.

(** The service of the test suite: built with no configuration. *)
Lemma explicit_operations_fail_fast_when_disabled_witness :
  sendToQueue Doubles.happy "notifications" JUndefined None
    (constructor None, [])
  = (Throw notConfigured, (constructor None, [])) /\
  consume Doubles.happy "user-notifications" Doubles.acking None
    (constructor None, [])
  = (Throw notConfigured, (constructor None, [])).
Proof.
  destruct (explicit_operations_fail_fast_when_disabled Doubles.happy
              (constructor None) [] eq_refl) as (H1 & _ & _ & _ & H5).
  split; [ apply H1 | apply H5 ].
Defined.

(** X6.  On an enabled service with both handles cached, [createQueue] and
    [createExchange] make exactly one call on the cached channel and their
    outcome is that call's outcome: a throw of the channel reaches the
    caller with no log line.  The queue is asserted with [durable: true]
    unless the caller's options carry a [durable] of their own; the
    exchange is asserted with the caller's [type] and the same default. *)
Theorem createQueue_createExchange_delegate (rt : Runtime)
    (s : EventsService) (t : Trace) (c : Connection) (ch : Channel)
    (Hen : rabbitMQEnabled s = true)
    (Hc : connection s = Some c) (Hch : channel s = Some ch) :
  (forall q o,
     createQueue rt q o (s, t) =
       (chan_assertQueue rt t ch q (queueOptions o),
        (s, t ++ [EvAssertQueue ch q (queueOptions o)]))) /\
  (forall x o,
     createExchange rt x o (s, t) =
       (chan_assertExchange rt t ch x (xo_type o) (exchangeOptions o),
        (s, t ++ [EvAssertExchange ch x (xo_type o) (exchangeOptions o)])))
  /\
  (forall o,
     qo_durable (queueOptions o) =
       match o with
       | None => Value true
       | Some o' =>
           match qo_durable o' with
           | Missing => Value true
           | own => own
           end
       end) /\
  (forall o,
     xo_type (exchangeOptions o) = xo_type o /\
     xo_durable (exchangeOptions o) =
       match xo_durable o with
       | Missing => Value true
       | own => own
       end).
Proof.
  pose proof (ensureConnection_cached rt s t c ch Hen Hc Hch) as Hok.
  split; [ | split; [ | split ] ].
  - intros q o. unfold createQueue. unfold bind at 1. rewrite Hok.
    unfold_monad. cbn [fst snd]. rewrite Hch. reflexivity.
  - intros x o. unfold createExchange. unfold bind at 1. rewrite Hok.
    unfold_monad. cbn [fst snd]. rewrite Hch. reflexivity.
  - intros [o | ]; [ | reflexivity ]. cbn.
    destruct (qo_durable o); reflexivity.
  - intros o. split; [ reflexivity | ]. cbn.
    destruct (xo_durable o); reflexivity.
Qed.

(** The declarations of the README, on a connected service. *)
Lemma createQueue_createExchange_delegate_witness :
  createQueue Doubles.happy "user-notifications" None Doubles.connected
  = (Ok tt,
     (fst Doubles.connected,
      snd Doubles.connected ++
        [EvAssertQueue {| chan_id := 1 |} "user-notifications"
           {| qo_durable := Value true; qo_exclusive := Missing;
              qo_autoDelete := Missing; qo_arguments := Missing |}])).
Proof.
  destruct (createQueue_createExchange_delegate Doubles.happy
              (fst Doubles.connected) (snd Doubles.connected)
              {| conn_id := 0 |} {| chan_id := 1 |}
              eq_refl eq_refl eq_refl) as (H & _).
  exact (H "user-notifications" None).
Defined.

(** ** Lifecycle *)

(** X7.  [disconnect()] is idempotent once it has gone through: after a
    [disconnect()] in which every close resolved, a second [disconnect()]
    asks nothing of the broker; it only logs the success line again and
    leaves both fields null. *)
Theorem disconnect_twice (rt : Runtime) (s : EventsService) (t : Trace)
    (Hchan : channel_closes rt s t) (Hconn : connection_closes rt s t) :
  disconnect rt (snd (disconnect rt (s, t))) =
    (Ok tt,
     (fst (snd (disconnect rt (s, t))),
      snd (snd (disconnect rt (s, t))) ++ [disconnected_log])) /\
  connection (fst (snd (disconnect rt (s, t)))) = None /\
  channel (fst (snd (disconnect rt (s, t)))) = None.
Proof.
  rewrite (disconnect_clean rt s t Hchan Hconn). cbn [fst snd].
  split; [ | split; reflexivity ].
  rewrite disconnect_clean; [ reflexivity | exact I | exact I ].
Qed.

Lemma disconnect_twice_witness :
  disconnect Doubles.happy (snd (disconnect Doubles.happy Doubles.connected))
  = (Ok tt,
     (constructor Doubles.enabled,
      snd Doubles.connected ++
        [EvChannelClose {| chan_id := 1 |};
         EvConnectionClose {| conn_id := 0 |};
         disconnected_log; disconnected_log])).
Proof.
  destruct (disconnect_twice Doubles.happy (fst Doubles.connected)
              (snd Doubles.connected) eq_refl eq_refl) as (H & _).
  exact H.
Defined.

(** X8.  The module hooks.  [onModuleInit()] does nothing at all on a
    service whose flag is off or that holds no profile.  On an enabled
    service with a profile it always dials, whether or not handles are
    already cached (unlike [ensureConnection()]), and nothing it asks
    closes the handles it replaces; a refused dial is thrown to the
    caller; and when it resolves, [isConnected()] answers true.  After an
    [onModuleDestroy()] in which every close resolved, [isConnected()]
    answers false. *)
Theorem module_hooks (rt : Runtime) (s : EventsService) (t : Trace) :
  (rabbitMQEnabled s = false \/ rabbitmq (config s) = None ->
   onModuleInit rt (s, t) = (Ok tt, (s, t))) /\
  (forall rc,
     rabbitMQEnabled s = true -> rabbitmq (config s) = Some rc ->
     (exists rest,
        snd (snd (onModuleInit rt (s, t))) = t ++ EvConnect (rc_url rc) :: rest
        /\ dials rest = 0 /\ Forall no_close rest) /\
     (forall e,
        amqp_connect rt t (rc_url rc) = Throw e ->
        onModuleInit rt (s, t) =
          (Throw e, (s, t ++ [EvConnect (rc_url rc); connect_failed_log e])))
     /\
     (forall st1,
        onModuleInit rt (s, t) = (Ok tt, st1) ->
        isConnected st1 = (Ok true, st1))) /\
  (channel_closes rt s t -> connection_closes rt s t ->
   isConnected (snd (onModuleDestroy rt (s, t))) =
     (Ok false, snd (onModuleDestroy rt (s, t)))).
Proof.
  split; [ | split ].
  - intros Hoff. unfold onModuleInit. unfold_monad. cbn [fst snd].
    destruct Hoff as [Hoff | Hoff]; rewrite Hoff.
    + reflexivity.
    + rewrite andb_false_r. reflexivity.
  - intros rc Hen Hrc.
    assert (Hinit : onModuleInit rt (s, t) = connectToRabbitMQ rt (s, t)).
    { unfold onModuleInit. unfold_monad. cbn [fst snd].
      rewrite Hen, Hrc. reflexivity. }
    rewrite Hinit. split; [ | split ].
    + destruct (connectToRabbitMQ_dials_once rt s t rc Hrc)
        as (rest & Erest & Hdials).
      destruct (connectToRabbitMQ_closes_nothing rt (s, t))
        as (new & Enew & Fnew).
      exists rest. split; [ exact Erest | split; [ exact Hdials | ] ].
      pose proof (eq_trans (eq_sym Enew) Erest) as E. cbn [snd] in E.
      apply app_inv_head in E. subst new. inversion Fnew; assumption.
    + intros e He. apply connectToRabbitMQ_refused; assumption.
    + intros st1 Hok.
      destruct (connectToRabbitMQ_resolves rt s t rc st1 Hrc Hok)
        as (c & ch & _ & _ & Hc & Hch).
      destruct (keeps_connectToRabbitMQ rt (s, t)) as [_ Hkeep].
      rewrite Hok in Hkeep. cbn [fst snd] in Hkeep.
      unfold isConnected. unfold_monad.
      rewrite Hkeep, Hen, Hc, Hch. reflexivity.
  - intros Hchan Hconn. unfold onModuleDestroy.
    rewrite (disconnect_clean rt s t Hchan Hconn).
    unfold isConnected. unfold_monad. cbn.
    rewrite andb_false_r. reflexivity.
Qed.

(** Start-up against a broker nobody listens at throws; start-up of a
    connected service dials a second time. *)
Lemma module_hooks_witness :
  onModuleInit Doubles.refusing (constructor Doubles.enabled, []) =
    (Throw (mkError "Error" "connect ECONNREFUSED"),
     (constructor Doubles.enabled,
      [EvConnect "amqp://localhost:5672";
       connect_failed_log (mkError "Error" "connect ECONNREFUSED")])) /\
  isConnected (snd (onModuleInit Doubles.happy Doubles.connected)) =
    (Ok true, snd (onModuleInit Doubles.happy Doubles.connected)) /\
  isConnected (snd (onModuleDestroy Doubles.happy Doubles.connected)) =
    (Ok false, snd (onModuleDestroy Doubles.happy Doubles.connected)).
Proof.
  destruct (module_hooks Doubles.refusing (constructor Doubles.enabled) [])
    as (_ & H & _).
  destruct (H Doubles.profile eq_refl eq_refl) as (_ & Hrefused & _).
  destruct (module_hooks Doubles.happy (fst Doubles.connected)
              (snd Doubles.connected)) as (_ & H2 & H3).
  destruct (H2 Doubles.profile eq_refl eq_refl) as (_ & _ & Hok).
  split; [ exact (Hrefused _ eq_refl) | split ].
  - exact (Hok (snd (onModuleInit Doubles.happy Doubles.connected)) eq_refl).
  - exact (H3 eq_refl eq_refl).
Defined.

(** ** Invariants of the cached handles *)

Section Nested.

Variable rt : Runtime.

Lemma connectToRabbitMQ_nested st :
  handles_nested (fst st) ->
  handles_nested (fst (snd (connectToRabbitMQ rt st))).
Proof.
  intros H. unfold connectToRabbitMQ. unfold_monad.
  repeat (split_match; cbn [fst snd] in * );
    first [ exact H | intros _; discriminate ].
Qed.

Lemma disconnect_nested st :
  handles_nested (fst st) ->
  handles_nested (fst (snd (disconnect rt st))).
Proof.
  intros H. unfold disconnect. unfold_monad.
  repeat (split_match; cbn [fst snd with_channel with_connection
                              connection channel] in * );
    try discriminate;
    first [ exact H | intros Hc; cbn in Hc; congruence ].
Qed.

Lemma ensureConnection_nested st :
  handles_nested (fst st) ->
  handles_nested (fst (snd (ensureConnection rt st))).
Proof.
  intros H. unfold ensureConnection. unfold bind, this, throw, ret.
  cbn [fst snd].
  destruct (negb (rabbitMQEnabled (fst st))); [ exact H | ].
  destruct (negb (isSome (connection (fst st)))
            || negb (isSome (channel (fst st)))); [ | exact H ].
  apply connectToRabbitMQ_nested. exact H.
Qed.

(** What follows [ensureConnection] in a method never assigns a field. *)
Lemma after_ensureConnection_nested A (rest : M A) st :
  (forall st', fst (snd (rest st')) = fst st') ->
  handles_nested (fst st) ->
  handles_nested (fst (snd ((ensureConnection rt ;; rest) st))).
Proof.
  intros Hrest H. unfold bind.
  pose proof (ensureConnection_nested st H) as H1.
  destruct (ensureConnection rt st) as [[[] | e] st1]; cbn [fst snd] in *.
  - rewrite Hrest. exact H1.
  - exact H1.
Qed.

Lemma sendToQueue_nested q m o st :
  handles_nested (fst st) ->
  handles_nested (fst (snd (sendToQueue rt q m o st))).
Proof.
  apply after_ensureConnection_nested. intros st'. unfold_monad.
  repeat (split_match; cbn [fst snd] in * ); reflexivity.
Qed.

Lemma publishToExchange_nested x k m o st :
  handles_nested (fst st) ->
  handles_nested (fst (snd (publishToExchange rt x k m o st))).
Proof.
  apply after_ensureConnection_nested. intros st'. unfold_monad.
  repeat (split_match; cbn [fst snd] in * ); reflexivity.
Qed.

Lemma deliveryCallback_fields h msg st :
  fst (snd (deliveryCallback rt h msg st)) = fst st.
Proof.
  destruct msg as [m | ]; [ | reflexivity ].
  unfold deliveryCallback. unfold_monad. cbn [fst snd].
  destruct (JSON_parse rt (Buffer_toString (msg_content m))) as [v | e];
    cbn [fst snd].
  - pose proof (runHandler_fields rt m
                  (h {| info_content := v; info_fields := msg_fields m;
                        info_properties := msg_properties m |}) st) as Hf.
    destruct (runHandler rt m _ st) as [[r | e] st1]; cbn [fst snd] in *.
    + exact Hf.
    + destruct (channel (fst st1)); cbn [fst snd]; exact Hf.
  - destruct (channel (fst st)); reflexivity.
Qed.

Lemma perform_nested op st :
  handles_nested (fst st) ->
  handles_nested (fst (snd (perform rt op st))).
Proof.
  intros H. destruct op; cbn [perform].
  - unfold onModuleInit. unfold bind, this, ret. cbn [fst snd].
    destruct (rabbitMQEnabled (fst st) && isSome (rabbitmq (config (fst st))));
      [ apply connectToRabbitMQ_nested | ]; exact H.
  - apply disconnect_nested. exact H.
  - unfold emitEvent. unfold_monad. cbn [fst snd].
    destruct (rabbitMQEnabled (fst st)); [ | exact H ].
    pose proof (sendToQueue_nested ("events." ++ eventName)%string data options
                  (fst st, snd st ++ [EvLog LevelLog
                                        ("Event emitted: " ++ eventName)%string
                                        None]) H) as H1.
    destruct (sendToQueue rt _ data options _) as [[b | e] st1];
      cbn [fst snd] in *; exact H1.
  - unfold discard, bind at 1.
    pose proof (sendToQueue_nested queueName message options st H) as H1.
    destruct (sendToQueue rt queueName message options st) as [[b | e] st1];
      exact H1.
  - unfold discard, bind at 1.
    pose proof (publishToExchange_nested exchangeName routingKey message
                  options st H) as H1.
    destruct (publishToExchange rt exchangeName routingKey message options st)
      as [[b | e] st1]; exact H1.
  - revert H. apply after_ensureConnection_nested. intros st'. unfold_monad.
    repeat (split_match; cbn [fst snd] in * ); reflexivity.
  - revert H. apply after_ensureConnection_nested. intros st'. unfold_monad.
    repeat (split_match; cbn [fst snd] in * ); reflexivity.
  - unfold discard, bind at 1.
    assert (H1 : handles_nested
                   (fst (snd (consume rt queueName handler options st)))).
    { revert H. apply after_ensureConnection_nested. intros st'.
      unfold_monad. repeat (split_match; cbn [fst snd] in * ); reflexivity. }
    destruct (consume rt queueName handler options st) as [[b | e] st1];
      exact H1.
  - rewrite deliveryCallback_fields. exact H.
  - exact H.
  - exact H.
  - exact H.
  - exact H.
Qed.

End Nested.



(** ** A service without a profile *)

Section Idle.

Variable rt : Runtime.

(** With no channel cached, the handler's [ack] and [nack] throw before
    reaching the broker, so its run leaves no trace. *)
Lemma runHandler_without_channel m h s t :
  channel s = None ->
  exists r, runHandler rt m h (s, t) = (r, (s, t)).
Proof.
  intros Hch.
  induction h as [r | e | k IH | requeue k IH]; cbn [runHandler].
  - eexists; reflexivity.
  - eexists; reflexivity.
  - unfold ack. unfold_monad. cbn [fst snd]. rewrite Hch. apply IH.
  - unfold nack. unfold_monad. cbn [fst snd].
    destruct requeue as [[ | ] | ]; rewrite Hch; apply IH.
Qed.

(** On a service with the flag off and no handle cached, every step leaves
    the fields alone and adds only log lines. *)
Lemma perform_idle op s t :
  rabbitMQEnabled s = false -> connection s = None -> channel s = None ->
  exists logs,
    snd (perform rt op (s, t)) = (s, t ++ logs) /\ Forall is_log logs.
Proof.
  intros Hoff Hc Hch.
  pose proof (ensureConnection_disabled rt s t Hoff) as Hthrow.
  assert (Hnil : exists logs : Trace,
            (s, t) = (s, t ++ logs) /\ Forall is_log logs).
  { exists []. rewrite app_nil_r. split; [ reflexivity | constructor ]. }
  assert (Hone : forall ev, is_log ev ->
            exists logs : Trace,
              (s, t ++ [ev]) = (s, t ++ logs) /\ Forall is_log logs).
  { intros ev Hev. exists [ev]. split; [ reflexivity | ].
    constructor; [ exact Hev | constructor ]. }
  destruct op; cbn [perform].
  - unfold onModuleInit. unfold_monad. cbn [fst snd]. rewrite Hoff.
    exact Hnil.
  - unfold onModuleDestroy, disconnect. unfold_monad. cbn [fst snd].
    rewrite Hch. cbn [fst snd]. rewrite Hc. cbn [fst snd].
    apply Hone. exact I.
  - unfold emitEvent. unfold_monad. cbn [fst snd]. rewrite Hoff.
    apply Hone. exact I.
  - unfold discard, sendToQueue. unfold bind at 1 2. rewrite Hthrow.
    exact Hnil.
  - unfold discard, publishToExchange. unfold bind at 1 2. rewrite Hthrow.
    exact Hnil.
  - unfold createQueue. unfold bind at 1. rewrite Hthrow. exact Hnil.
  - unfold createExchange. unfold bind at 1. rewrite Hthrow. exact Hnil.
  - unfold discard, consume. unfold bind at 1 2. rewrite Hthrow.
    exact Hnil.
  - destruct msg as [m | ]; [ | exact Hnil ].
    unfold deliveryCallback. unfold_monad. cbn [fst snd].
    destruct (JSON_parse rt (Buffer_toString (msg_content m))) as [v | e];
      cbn [fst snd].
    + destruct (runHandler_without_channel m
                  (handler {| info_content := v; info_fields := msg_fields m;
                              info_properties := msg_properties m |}) s t Hch)
        as [r Hr].
      rewrite Hr. destruct r as [r | e]; cbn [fst snd].
      * exact Hnil.
      * rewrite Hch. cbn [fst snd]. apply Hone. exact I.
    + rewrite Hch. cbn [fst snd]. apply Hone. exact I.
  - unfold connectionErrorObserver. unfold_monad. cbn [fst snd].
    apply Hone. exact I.
  - unfold connectionCloseObserver. unfold_monad. cbn [fst snd].
    apply Hone. exact I.
  - exact Hnil.
  - exact Hnil.
Qed.

End Idle.

(** X10.  A service built without a profile never asks anything of the
    broker and never caches a handle: in every state it can reach, the
    fields are those the constructor set and the trace holds log lines
    only; whatever is called on it, and whatever is delivered to it. *)
Theorem unconfigured_service_never_reaches_the_broker (rt : Runtime)
    (cfg : option EventsConfig) (st : St)
    (Hreach : reachable rt cfg st) (Hnone : supplied cfg = None) :
  fst st = constructor cfg /\ Forall is_log (snd st).
Proof.
  induction Hreach as [ | [s t] op Hr [IHs IHt]].
  - split; [ reflexivity | constructor ].
  - cbn [fst snd] in IHs, IHt.
    assert (Hoff : rabbitMQEnabled s = false /\ connection s = None /\
                   channel s = None).
    { subst s. destruct cfg as [c | ]; cbn in *; [ rewrite Hnone | ];
        repeat split. }
    destruct Hoff as (Hoff & Hc & Hch).
    destruct (perform_idle rt op s t Hoff Hc Hch) as (logs & E & F).
    rewrite E. cbn [fst snd]. split; [ exact IHs | ].
    apply Forall_app. split; assumption.
Qed.

(** The test suite's service after an [emitEvent] and a stray delivery. *)
Lemma unconfigured_service_never_reaches_the_broker_witness :
  reachable Doubles.happy None
    (snd (perform Doubles.happy
            (OpDelivery Faults.ack_then_throw (Some (Doubles.delivery "1")))
            (snd (perform Doubles.happy
                    (OpEmitEvent "test" (JObject [("data", JString "test")])
                       None)
                    (constructor None, []))))) /\
  Forall is_log
    (snd (snd (perform Doubles.happy
            (OpDelivery Faults.ack_then_throw (Some (Doubles.delivery "1")))
            (snd (perform Doubles.happy
                    (OpEmitEvent "test" (JObject [("data", JString "test")])
                       None)
                    (constructor None, [])))))).
Proof.
  assert (Hreach :
    reachable Doubles.happy None
      (snd (perform Doubles.happy
              (OpDelivery Faults.ack_then_throw (Some (Doubles.delivery "1")))
              (snd (perform Doubles.happy
                      (OpEmitEvent "test"
                         (JObject [("data", JString "test")]) None)
                      (constructor None, []))))))
    by (do 2 apply reach_step; apply reach_new).
  split; [ exact Hreach | ].
  destruct (unconfigured_service_never_reaches_the_broker Doubles.happy None
              _ Hreach eq_refl) as [_ H].
  exact H.
Defined.

(** ** Reuse of the connection *)

(** X11.  On a reachable state, once [ensureConnection()] has resolved,
    both handles are cached and a second [ensureConnection()] returns at
    once in the same state: consecutive operations share one connection
    and one channel instead of dialing again. *)
Theorem ensureConnection_twice (rt : Runtime) (cfg : option EventsConfig)
    (st st1 : St)
    (Hreach : reachable rt cfg st)
    (Hok : ensureConnection rt st = (Ok tt, st1)) :
  connection (fst st1) <> None /\ channel (fst st1) <> None /\
  ensureConnection rt st1 = (Ok tt, st1).
Proof.
  destruct st as [s t].
  destruct (reachable_config rt cfg (s, t) Hreach) as [Hcfg Hen].
  cbn [fst] in *.
  destruct (rabbitMQEnabled s) eqn:Hon;
    [ | rewrite (ensureConnection_disabled rt s t Hon) in Hok; discriminate ].
  assert (Hboth : exists c ch, connection (fst st1) = Some c /\
                               channel (fst st1) = Some ch).
  { destruct (connection s) as [c | ] eqn:Hc;
      [ destruct (channel s) as [ch | ] eqn:Hch | ].
    - rewrite (ensureConnection_cached rt s t c ch Hon Hc Hch) in Hok.
      injection Hok as <-. exists c, ch. split; assumption.
    - rewrite ensureConnection_redials in Hok by auto.
      destruct (supplied cfg) as [rc | ] eqn:Hs; [ | discriminate ].
      destruct (connectToRabbitMQ_resolves rt s t rc st1 Hcfg Hok)
        as (c' & ch' & _ & _ & H1 & H2).
      exists c', ch'. split; assumption.
    - rewrite ensureConnection_redials in Hok by auto.
      destruct (supplied cfg) as [rc | ] eqn:Hs; [ | discriminate ].
      destruct (connectToRabbitMQ_resolves rt s t rc st1 Hcfg Hok)
        as (c' & ch' & _ & _ & H1 & H2).
      exists c', ch'. split; assumption. }
  destruct Hboth as (c & ch & Hc & Hch).
  destruct (keeps_ensureConnection rt (s, t)) as [_ Hkeep].
  rewrite Hok in Hkeep. cbn [fst snd] in Hkeep. rewrite Hon in Hkeep.
  split; [ congruence | split; [ congruence | ] ].
  destruct st1 as [s1 t1]. cbn [fst] in *.
  apply (ensureConnection_cached rt s1 t1 c ch Hkeep Hc Hch).
Qed.

Lemma ensureConnection_twice_witness :
  reachable Doubles.happy Doubles.enabled (constructor Doubles.enabled, []) /\
  ensureConnection Doubles.happy (constructor Doubles.enabled, []) =
    (Ok tt, Doubles.connected) /\
  ensureConnection Doubles.happy Doubles.connected =
    (Ok tt, Doubles.connected).
Proof.
  split; [ apply reach_new | split; [ reflexivity | ] ].
  destruct (ensureConnection_twice Doubles.happy Doubles.enabled
              (constructor Doubles.enabled, []) Doubles.connected
              (reach_new Doubles.happy Doubles.enabled) eq_refl)
    as (_ & _ & H).
  exact H.
Defined.

(** ** No operation dials twice *)

Section DialCount.

Lemma no_dial_dials new : Forall no_dial new -> dials new = 0.
Proof.
  induction 1 as [ | ev new Hev _ IH]; [ reflexivity | ].
  destruct ev; cbn in *; solve [ exact IH | contradiction ].
Qed.

Lemma dials_app t1 t2 : dials (t1 ++ t2) = dials t1 + dials t2.
Proof.
  induction t1 as [ | ev t1 IH]; [ reflexivity | ].
  destruct ev; cbn; rewrite IH; reflexivity.
Qed.

Lemma dials_at_most_quiet A (m : M A) : emits no_dial m -> dials_at_most 0 m.
Proof.
  intros H st. destruct (H st) as (new & E & F).
  exists new. split; [ exact E | ]. rewrite (no_dial_dials new F). lia.
Qed.

Lemma dials_at_most_bind A B n1 n2 (m : M A) (k : A -> M B) :
  dials_at_most n1 m -> (forall a, dials_at_most n2 (k a)) ->
  dials_at_most (n1 + n2) (bind m k).
Proof.
  intros Hm Hk st. unfold bind. destruct (Hm st) as (new1 & E1 & B1).
  destruct (m st) as [[a | e] st1]; cbn [snd] in E1.
  - destruct (Hk a st1) as (new2 & E2 & B2).
    exists (new1 ++ new2). rewrite E2, E1, app_assoc, dials_app.
    split; [ reflexivity | lia ].
  - exists new1. split; [ exact E1 | lia ].
Qed.

Lemma dials_at_most_try_catch A n1 n2 (m : M A) (h : JsError -> M A) :
  dials_at_most n1 m -> (forall e, dials_at_most n2 (h e)) ->
  dials_at_most (n1 + n2) (try_catch m h).
Proof.
  intros Hm Hh st. unfold try_catch. destruct (Hm st) as (new1 & E1 & B1).
  destruct (m st) as [[a | e] st1]; cbn [snd] in E1.
  - exists new1. split; [ exact E1 | lia ].
  - destruct (Hh e st1) as (new2 & E2 & B2).
    exists (new1 ++ new2). rewrite E2, E1, app_assoc, dials_app.
    split; [ reflexivity | lia ].
Qed.

Variable rt : Runtime.

Lemma connectToRabbitMQ_dials_at_most_once :
  dials_at_most 1 (connectToRabbitMQ rt).
Proof.
  intros [s t]. destruct (rabbitmq (config s)) as [rc | ] eqn:Hrc.
  - destruct (connectToRabbitMQ_dials_once rt s t rc Hrc) as (rest & E & D).
    exists (EvConnect (rc_url rc) :: rest). split; [ exact E | ].
    cbn. lia.
  - rewrite (connectToRabbitMQ_without_profile rt s t Hrc).
    exists []. rewrite app_nil_r. split; [ reflexivity | cbn; lia ].
Qed.

Lemma ensureConnection_dials_at_most_once :
  dials_at_most 1 (ensureConnection rt).
Proof.
  intros st. unfold ensureConnection. unfold bind, this, throw, ret.
  cbn [fst snd].
  destruct (negb (rabbitMQEnabled (fst st)));
    [ exists []; rewrite app_nil_r; split; [ reflexivity | cbn; lia ] | ].
  destruct (negb (isSome (connection (fst st)))
            || negb (isSome (channel (fst st))));
    [ apply connectToRabbitMQ_dials_at_most_once
    | exists []; rewrite app_nil_r; split; [ reflexivity | cbn; lia ] ].
Qed.

Lemma sendToQueue_dials_at_most_once q m o :
  dials_at_most 1 (sendToQueue rt q m o).
Proof.
  unfold sendToQueue. apply (dials_at_most_bind _ _ 1 0).
  - apply ensureConnection_dials_at_most_once.
  - intros _. apply dials_at_most_quiet. unfold logger_error. emits.
Qed.

Lemma runHandler_never_dials m h : emits no_dial (runHandler rt m h).
Proof.
  induction h as [r | e | k IH | requeue k IH]; cbn [runHandler].
  - apply emits_ret.
  - apply emits_throw.
  - apply emits_then; [ unfold ack; emits | exact IH ].
  - apply emits_then; [ unfold nack; emits | exact IH ].
Qed.

Lemma perform_dials_at_most_once op : dials_at_most 1 (perform rt op).
Proof.
  pose proof ensureConnection_dials_at_most_once as Hens.
  destruct op; cbn [perform].
  - unfold onModuleInit. intros st. unfold bind, this, ret. cbn [fst snd].
    destruct (rabbitMQEnabled (fst st) && isSome (rabbitmq (config (fst st))));
      [ apply connectToRabbitMQ_dials_at_most_once
      | exists []; rewrite app_nil_r; split; [ reflexivity | cbn; lia ] ].
  - intros st.
    destruct (dials_at_most_quiet unit (disconnect rt)) with (st := st)
      as (new & E & B).
    { unfold disconnect, logger_log, logger_error. emits. }
    exists new. split; [ exact E | lia ].
  - unfold emitEvent. apply (dials_at_most_bind _ _ 0 1).
    { apply dials_at_most_quiet. unfold logger_log. emits. }
    intros _. apply (dials_at_most_bind _ _ 0 1).
    { apply dials_at_most_quiet. emits. }
    intros s. destruct (rabbitMQEnabled s).
    + apply (dials_at_most_try_catch _ 1 0).
      * apply (dials_at_most_bind _ _ 1 0).
        { apply sendToQueue_dials_at_most_once. }
        intros _. apply dials_at_most_quiet. emits.
      * intros e. apply dials_at_most_quiet. unfold logger_error. emits.
    + intros st. exists []. rewrite app_nil_r.
      split; [ reflexivity | cbn; lia ].
  - unfold discard. apply (dials_at_most_bind _ _ 1 0).
    + apply sendToQueue_dials_at_most_once.
    + intros _. apply dials_at_most_quiet. emits.
  - unfold discard, publishToExchange. apply (dials_at_most_bind _ _ 1 0).
    + apply (dials_at_most_bind _ _ 1 0); [ exact Hens | ].
      intros _. apply dials_at_most_quiet. unfold logger_error. emits.
    + intros _. apply dials_at_most_quiet. emits.
  - unfold createQueue. apply (dials_at_most_bind _ _ 1 0); [ exact Hens | ].
    intros _. apply dials_at_most_quiet. emits.
  - unfold createExchange. apply (dials_at_most_bind _ _ 1 0); [ exact Hens | ].
    intros _. apply dials_at_most_quiet. emits.
  - unfold discard, consume. apply (dials_at_most_bind _ _ 1 0).
    + apply (dials_at_most_bind _ _ 1 0); [ exact Hens | ].
      intros _. apply dials_at_most_quiet. emits.
    + intros _. apply dials_at_most_quiet. emits.
  - intros st.
    destruct (dials_at_most_quiet unit (deliveryCallback rt handler msg))
      with (st := st) as (new & E & B).
    { unfold deliveryCallback, logger_error. emits.
      apply runHandler_never_dials. }
    exists new. split; [ exact E | lia ].
  - intros st.
    destruct (dials_at_most_quiet unit (connectionErrorObserver err))
      with (st := st) as (new & E & B).
    { unfold connectionErrorObserver, logger_error. emits. }
    exists new. split; [ exact E | lia ].
  - intros st.
    destruct (dials_at_most_quiet unit connectionCloseObserver)
      with (st := st) as (new & E & B).
    { unfold connectionCloseObserver, logger_warn. emits. }
    exists new. split; [ exact E | lia ].
  - intros st. exists []. rewrite app_nil_r.
    split; [ reflexivity | cbn; lia ].
  - intros st. exists []. rewrite app_nil_r.
    split; [ reflexivity | cbn; lia ].
Qed.

End DialCount.

(** X12.  No step dials more than once: whatever is called on the service
    (a hook, a public method, a delivery, an observer), in whatever state
    and against whatever broker, what it adds to the trace holds at most
    one dial.  There is no retry loop anywhere; deliveries, observers,
    queries and [onModuleDestroy] never dial. *)
Theorem every_step_dials_at_most_once (rt : Runtime) (op : Op) (st : St) :
  (exists new,
     snd (snd (perform rt op st)) = snd st ++ new /\ dials new <= 1) /\
  (forall new,
     snd (snd (perform rt op st)) = snd st ++ new ->
     match op with
     | OpModuleDestroy | OpDelivery _ _ | OpConnectionError _
     | OpConnectionClose | OpIsConnected | OpIsRabbitMQEnabled =>
         dials new = 0
     | _ => dials new <= 1
     end).
Proof.
  pose proof (perform_dials_at_most_once rt op st) as H1.
  split; [ exact H1 | ].
  intros new Enew.
  assert (Hquiet : emits no_dial (perform rt op) -> dials new = 0).
  { intros Hq. destruct (Hq st) as (new' & E & F).
    pose proof (eq_trans (eq_sym Enew) E) as E'.
    apply app_inv_head in E'. subst new'. apply no_dial_dials. exact F. }
  assert (Hle : dials new <= 1).
  { destruct H1 as (new' & E & B).
    pose proof (eq_trans (eq_sym Enew) E) as E'.
    apply app_inv_head in E'. subst new'. exact B. }
  destruct op; try exact Hle; apply Hquiet; cbn [perform].
  - unfold onModuleDestroy, disconnect, logger_log, logger_error. emits.
  - unfold deliveryCallback, logger_error.
    destruct msg; emits. apply runHandler_never_dials.
  - unfold connectionErrorObserver, logger_error. emits.
  - unfold connectionCloseObserver, logger_warn. emits.
  - unfold discard, isConnected. emits.
  - unfold discard, isRabbitMQEnabled. emits.
Qed.

(** ** Who resolves a delivery *)

(** X13.  The callback keeps no record of what the handler did with a
    delivery.  If the handler returns without calling [ack] or [nack], the
    callback adds nothing: the delivery stays unresolved (there is no
    automatic ack).  If the handler calls [ack] (or [nack]) and then throws,
    the callback still rejects the delivery, so the channel is asked to
    resolve the same delivery twice. *)
Theorem delivery_resolution_is_left_to_the_handler (rt : Runtime)
    (handler : MessageHandler) (m : ConsumeMessage) (s : EventsService)
    (t : Trace) (ch : Channel) (content : JsValue)
    (Hch : channel s = Some ch)
    (Hparse : JSON_parse rt (Buffer_toString (msg_content m)) = Ok content) :
  (forall r,
     handler (messageInfo m content) = HReturn r ->
     deliveryCallback rt handler (Some m) (s, t) = (Ok tt, (s, t))) /\
  (forall k e,
     handler (messageInfo m content) = HAck k ->
     (forall r, k r = HThrow e) ->
     deliveryCallback rt handler (Some m) (s, t) =
       (chan_reject rt (t ++ [EvAck ch m; processing_error_log e]) ch m false,
        (s, t ++ [EvAck ch m; processing_error_log e; EvReject ch m false])))
  /\
  (forall k e,
     handler (messageInfo m content) = HNack (Some true) k ->
     (forall r, k r = HThrow e) ->
     deliveryCallback rt handler (Some m) (s, t) =
       (chan_reject rt
          (t ++ [EvNack ch m false true; processing_error_log e]) ch m false,
        (s, t ++ [EvNack ch m false true; processing_error_log e;
                  EvReject ch m false]))).
Proof.
  pose proof (deliveryCallback_decoded rt handler m s t ch content Hch Hparse)
    as Hrun.
  split; [ | split ].
  - intros r Hh. rewrite Hrun, Hh. reflexivity.
  - intros k e Hh Hk. rewrite Hrun, Hh. cbn [runHandler].
    rewrite (ack_bound rt m s t ch Hch). cbv beta iota.
    rewrite Hk. cbn [runHandler].
    unfold throw, rejected. cbn [fst snd]. flatten_trace. reflexivity.
  - intros k e Hh Hk. rewrite Hrun, Hh. cbn [runHandler].
    rewrite (nack_bound rt m s t ch (Some true) Hch).
    cbn [truthy_opt_bool]. cbv beta iota. rewrite Hk. cbn [runHandler].
    unfold throw, rejected. cbn [fst snd]. flatten_trace. reflexivity.
Qed.

Lemma delivery_resolution_is_left_to_the_handler_witness :
  deliveryCallback Doubles.happy Faults.ack_then_throw
    (Some (Doubles.delivery "1")) Doubles.connected
  = (Ok tt,
     (fst Doubles.connected,
      snd Doubles.connected ++
        [EvAck {| chan_id := 1 |} (Doubles.delivery "1");
         processing_error_log (mkError "Error" "handler failed");
         EvReject {| chan_id := 1 |} (Doubles.delivery "1") false])).
Proof.
  destruct (delivery_resolution_is_left_to_the_handler Doubles.happy
              Faults.ack_then_throw (Doubles.delivery "1")
              (fst Doubles.connected) (snd Doubles.connected)
              {| chan_id := 1 |} (JNumber 1%float) eq_refl eq_refl)
    as (_ & H & _).
  exact (H (fun _ => HThrow (mkError "Error" "handler failed"))
           (mkError "Error" "handler failed") eq_refl (fun _ => eq_refl)).
Defined.

(** ** First use, and what a failed publish leaves in the log *)

(** X14.  Connecting on demand.  On an enabled service with a handle
    missing (its [onModuleInit] never ran, or it was torn down), when the
    broker grants the dial, the channel and the prefetch, [sendToQueue]
    first connects and then makes its one call on the channel it has just
    opened; its outcome is that call's outcome unless the call throws, and
    afterwards both fresh handles are cached. *)
Theorem sendToQueue_connects_on_first_use (rt : Runtime) (s : EventsService)
    (t : Trace) (rc : RabbitMQConfig) (c : Connection) (ch : Channel)
    (q : string) (m : JsValue) (o : option MessageOptions)
    (json : option string) (body : Buffer)
    (Hen : rabbitMQEnabled s = true)
    (Hrc : rabbitmq (config s) = Some rc)
    (Hmiss : connection s = None \/ channel s = None)
    (Hc : amqp_connect rt t (rc_url rc) = Ok c)
    (Hch : conn_createChannel rt (t ++ [EvConnect (rc_url rc)]) c = Ok ch)
    (Hpre : prefetch_resolves rt rc
              (t ++ [EvConnect (rc_url rc); EvCreateChannel c]) ch)
    (Hjson : JSON_stringify rt m = Ok json)
    (Hbody : Buffer_from json = Ok body) :
  exists t1,
    t1 = t ++ [EvConnect (rc_url rc); EvCreateChannel c]
           ++ prefetch_calls rc ch
           ++ [EvOn c "error"; EvOn c "close"; connected_log] /\
    sendToQueue rt q m o (s, t) =
      match chan_sendToQueue rt t1 ch q body (publishOptions o) with
      | Ok b =>
          (Ok b,
           (with_channel (Some ch) (with_connection (Some c) s),
            t1 ++ [EvSendToQueue ch q body (publishOptions o)]))
      | Throw e =>
          (Throw e,
           (with_channel (Some ch) (with_connection (Some c) s),
            t1 ++ [EvSendToQueue ch q body (publishOptions o);
                   send_error_log q e]))
      end.
Proof.
  eexists. split; [ reflexivity | ].
  unfold sendToQueue. unfold bind at 1.
  rewrite (ensureConnection_redials rt s t Hen Hmiss).
  rewrite (connectToRabbitMQ_success rt s t rc c ch Hrc Hc Hch Hpre).
  unfold send_error_log. unfold_monad. cbn [fst snd].
  rewrite Hjson. cbn [fst snd]. rewrite Hbody. cbn [fst snd channel with_channel].
  destruct (chan_sendToQueue rt _ ch q body (publishOptions o));
    cbn [fst snd]; flatten_trace; reflexivity.
Qed.

(** The README's [sendToQueue('notifications', data)] on a service that
    has not connected yet. *)
Lemma sendToQueue_connects_on_first_use_witness :
  sendToQueue Doubles.happy "notifications" (JObject []) None
    (constructor Doubles.enabled, [])
  = (Ok true,
     (fst Doubles.connected,
      snd Doubles.connected ++
        [EvSendToQueue {| chan_id := 1 |} "notifications" "{}"
           (publishOptions None)])).
Proof.
  destruct (sendToQueue_connects_on_first_use Doubles.happy
              (constructor Doubles.enabled) [] Doubles.profile
              {| conn_id := 0 |} {| chan_id := 1 |} "notifications"
              (JObject []) None (Some "{}") "{}"
              eq_refl eq_refl (or_introl eq_refl) eq_refl eq_refl eq_refl
              eq_refl eq_refl) as (t1 & Et1 & H).
  subst t1. exact H.
Defined.

Section Logged.

Variable rt : Runtime.

(** A throw of [connectToRabbitMQ] has just been logged. *)
Lemma connectToRabbitMQ_throw_logged st e st' :
  connectToRabbitMQ rt st = (Throw e, st') ->
  exists pre, snd st' = pre ++ [connect_failed_log e].
Proof.
  unfold connectToRabbitMQ, connect_failed_log. unfold_monad.
  repeat (split_match; cbn [fst snd] in * );
    intros Heq; try discriminate;
    injection Heq as <- <-; cbn [fst snd];
    repeat match goal with
           | H : (_, _) = (_, _) |- _ => injection H as ? ?; subst
           end;
    try discriminate;
    eexists; reflexivity.
Qed.

Lemma ensureConnection_throw_logged s t e st' :
  rabbitMQEnabled s = true ->
  ensureConnection rt (s, t) = (Throw e, st') ->
  exists pre, snd st' = pre ++ [connect_failed_log e].
Proof.
  intros Hen. unfold ensureConnection. unfold bind, this, throw, ret.
  cbn [fst snd]. rewrite Hen. cbn [negb].
  destruct (negb (isSome (connection s)) || negb (isSome (channel s)));
    [ apply connectToRabbitMQ_throw_logged | discriminate ].
Qed.

End Logged.

(** X15.  No failed publish is silent.  On an enabled service, whenever
    [sendToQueue] or [publishToExchange] throws, the last thing added to
    the trace is an error-level log line carrying the very error thrown:
    the connect line when connecting failed, the method's own line when
    serializing or the channel call failed. *)
Theorem failed_publish_is_logged (rt : Runtime) (s : EventsService)
    (t : Trace) (m : JsValue) (o : option MessageOptions) (e : JsError)
    (st' : St) (Hen : rabbitMQEnabled s = true) :
  (forall q,
     sendToQueue rt q m o (s, t) = (Throw e, st') ->
     exists pre,
       snd st' = pre ++ [connect_failed_log e] \/
       snd st' = pre ++ [send_error_log q e]) /\
  (forall x k,
     publishToExchange rt x k m o (s, t) = (Throw e, st') ->
     exists pre,
       snd st' = pre ++ [connect_failed_log e] \/
       snd st' = pre ++ [publish_error_log x e]).
Proof.
  split.
  - intros q. unfold sendToQueue. unfold bind at 1.
    destruct (ensureConnection rt (s, t)) as [[[] | e0] st1] eqn:Hens.
    + unfold send_error_log. unfold_monad.
      repeat (split_match; cbn [fst snd] in * );
        intros Heq; try discriminate;
        injection Heq as <- <-; cbn [fst snd];
        repeat match goal with
               | H : (_, _) = (_, _) |- _ => injection H as ? ?; subst
               end;
        try discriminate;
        eexists; right; reflexivity.
    + intros Heq. injection Heq as -> ->.
      destruct (ensureConnection_throw_logged rt s t e st' Hen Hens)
        as [pre Hpre].
      exists pre. left. exact Hpre.
  - intros x k. unfold publishToExchange. unfold bind at 1.
    destruct (ensureConnection rt (s, t)) as [[[] | e0] st1] eqn:Hens.
    + unfold publish_error_log. unfold_monad.
      repeat (split_match; cbn [fst snd] in * );
        intros Heq; try discriminate;
        injection Heq as <- <-; cbn [fst snd];
        repeat match goal with
               | H : (_, _) = (_, _) |- _ => injection H as ? ?; subst
               end;
        try discriminate;
        eexists; right; reflexivity.
    + intros Heq. injection Heq as -> ->.
      destruct (ensureConnection_throw_logged rt s t e st' Hen Hens)
        as [pre Hpre].
      exists pre. left. exact Hpre.
Qed.

(** A payload that does not serialize, sent through a connected service. *)
Lemma failed_publish_is_logged_witness :
  sendToQueue Doubles.happy "q" JUndefined None Doubles.connected =
    (Throw
       (mkError "TypeError"
          "The first argument must be of type string or an instance of Buffer, ArrayBuffer, or Array or an Array-like Object. Received undefined"),
     snd (sendToQueue Doubles.happy "q" JUndefined None Doubles.connected))
  /\
  exists pre,
    snd (snd (sendToQueue Doubles.happy "q" JUndefined None Doubles.connected))
    = pre ++ [connect_failed_log
                (mkError "TypeError"
                   "The first argument must be of type string or an instance of Buffer, ArrayBuffer, or Array or an Array-like Object. Received undefined")]
    \/
    snd (snd (sendToQueue Doubles.happy "q" JUndefined None Doubles.connected))
    = pre ++ [send_error_log "q"
                (mkError "TypeError"
                   "The first argument must be of type string or an instance of Buffer, ArrayBuffer, or Array or an Array-like Object. Received undefined")].
Proof.
  split; [ reflexivity | ].
  destruct (failed_publish_is_logged Doubles.happy (fst Doubles.connected)
              (snd Doubles.connected) JUndefined None
              (mkError "TypeError"
                 "The first argument must be of type string or an instance of Buffer, ArrayBuffer, or Array or an Array-like Object. Received undefined")
              (snd (sendToQueue Doubles.happy "q" JUndefined None
                      Doubles.connected))
              eq_refl) as [H _].
  exact (H "q" eq_refl).
Defined.

(** * The async methods, run alone *)

Section Alone.

Import Interleaved.

Lemma Async_induction (A : Type) (P : Async A -> Prop) :
  (forall r, P (Settled r)) ->
  (forall k, (forall st, P (fst (k st))) -> P (Pending k)) ->
  forall a, P a.
Proof.
  intros HS HP.
  exact (fix go (a : Async A) : P a :=
           match a with
           | Settled r => HS r
           | Pending k => HP k (fun st => go (fst (k st)))
           end).
Qed.

Lemma finish_awaited A (a : Async A) st : finish (awaited a) st = finish a st.
Proof.
  revert st. induction a as [r | k IH] using Async_induction; intros st.
  - reflexivity.
  - cbn. specialize (IH st). destruct (k st) as [a' st']. apply IH.
Qed.

Lemma alone_sync A (m : M A) st : alone (sync m) st = m st.
Proof. unfold alone, sync. destruct (m st) as [r st']. reflexivity. Qed.

Lemma alone_await A (p : Proc A) st : alone (await p) st = alone p st.
Proof.
  unfold alone, await. destruct (p st) as [a st']. apply finish_awaited.
Qed.

Lemma finish_andThen A B (a : Async A) (k : A -> Proc B) st :
  (let (b, st') := andThen a k st in finish b st') =
  match finish a st with
  | (Ok x, st1) => alone (k x) st1
  | (Throw e, st1) => (Throw e, st1)
  end.
Proof.
  revert st. induction a as [[x | e] | r IH] using Async_induction; intros st.
  - reflexivity.
  - reflexivity.
  - cbn. specialize (IH st). destruct (r st) as [a' st']. apply IH.
Qed.

Lemma alone_pbind A B (p : Proc A) (k : A -> Proc B) st :
  alone (pbind p k) st = bind (alone p) (fun x => alone (k x)) st.
Proof.
  unfold alone at 1 2, pbind, bind. destruct (p st) as [a st1].
  rewrite finish_andThen. destruct (finish a st1) as [[x | e] st2];
    reflexivity.
Qed.

Lemma finish_catching A (a : Async A) (h : JsError -> Proc A) st :
  (let (b, st') := catching a h st in finish b st') =
  match finish a st with
  | (Ok x, st1) => (Ok x, st1)
  | (Throw e, st1) => alone (h e) st1
  end.
Proof.
  revert st. induction a as [[x | e] | r IH] using Async_induction; intros st.
  - reflexivity.
  - reflexivity.
  - cbn. specialize (IH st). destruct (r st) as [a' st']. apply IH.
Qed.

Lemma alone_ptry A (p : Proc A) (h : JsError -> Proc A) st :
  alone (ptry p h) st = try_catch (alone p) (fun e => alone (h e)) st.
Proof.
  unfold alone at 1 2, ptry, try_catch. destruct (p st) as [a st1].
  rewrite finish_catching. destruct (finish a st1) as [[x | e] st2];
    reflexivity.
Qed.

(** Run alone, a composed body is the composition of its parts run
    alone. *)
Lemma alone_pbind_as A B (p : Proc A) (k : A -> Proc B) (m : M A)
    (m' : A -> M B) :
  (forall st, alone p st = m st) ->
  (forall x st, alone (k x) st = m' x st) ->
  forall st, alone (pbind p k) st = bind m m' st.
Proof.
  intros Hp Hk st. rewrite alone_pbind. unfold bind. rewrite Hp.
  destruct (m st) as [[x | e] st1]; [ apply Hk | reflexivity ].
Qed.

Lemma alone_ptry_as A (p : Proc A) (h : JsError -> Proc A) (m : M A)
    (m' : JsError -> M A) :
  (forall st, alone p st = m st) ->
  (forall e st, alone (h e) st = m' e st) ->
  forall st, alone (ptry p h) st = try_catch m m' st.
Proof.
  intros Hp Hh st. rewrite alone_ptry. unfold try_catch. rewrite Hp.
  destruct (m st) as [[x | e] st1]; [ reflexivity | apply Hh ].
Qed.

Lemma alone_await_as A (p : Proc A) (m : M A) :
  (forall st, alone p st = m st) -> forall st, alone (await p) st = m st.
Proof. intros Hp st. rewrite alone_await. apply Hp. Qed.

End Alone.

Section AloneMethods.

Variable rt : Runtime.

Lemma alone_connectToRabbitMQ st :
  Interleaved.alone (Interleaved.connectToRabbitMQ rt) st =
  connectToRabbitMQ rt st.
Proof.
  destruct st as [s t].
  unfold Interleaved.connectToRabbitMQ, connectToRabbitMQ.
  unfold Interleaved.alone, Interleaved.pbind, Interleaved.ptry,
    Interleaved.await, Interleaved.sync.
  unfold_monad. cbn.
  destruct (rabbitmq (config s)) as [rc | ]; [ | reflexivity ]. cbn.
  destruct (amqp_connect rt t (rc_url rc)) as [c | e]; [ | reflexivity ].
  cbn.
  destruct (conn_createChannel rt (t ++ [EvConnect (rc_url rc)]) c)
    as [ch | e]; [ | reflexivity ].
  cbn.
  destruct (rc_prefetch rc) as [n | ]; [ destruct (truthy_number n) | ];
    cbn; try reflexivity.
  destruct (chan_prefetch rt _ ch n) as [[] | e]; reflexivity.
Qed.

Lemma alone_disconnect st :
  Interleaved.alone (Interleaved.disconnect rt) st = disconnect rt st.
Proof.
  destruct st as [s t].
  unfold Interleaved.disconnect, disconnect.
  unfold Interleaved.alone, Interleaved.pbind, Interleaved.ptry,
    Interleaved.await, Interleaved.sync.
  unfold_monad. cbn.
  destruct (channel s) as [ch | ]; cbn.
  - destruct (chan_close rt t ch) as [[] | e]; cbn; [ | reflexivity ].
    destruct (connection s) as [c | ]; cbn; [ | reflexivity ].
    destruct (conn_close rt _ c) as [[] | e]; reflexivity.
  - destruct (connection s) as [c | ]; cbn; [ | reflexivity ].
    destruct (conn_close rt _ c) as [[] | e]; reflexivity.
Qed.

Lemma alone_ensureConnection st :
  Interleaved.alone (Interleaved.ensureConnection rt) st =
  ensureConnection rt st.
Proof.
  revert st. unfold Interleaved.ensureConnection, ensureConnection.
  apply alone_pbind_as; [ intro; apply alone_sync | intros s st ].
  destruct (negb (rabbitMQEnabled s)); [ apply alone_sync | ].
  destruct (negb (isSome (connection s)) || negb (isSome (channel s)));
    [ | apply alone_sync ].
  rewrite alone_await. apply alone_connectToRabbitMQ.
Qed.

Lemma alone_onModuleInit st :
  Interleaved.alone (Interleaved.onModuleInit rt) st = onModuleInit rt st.
Proof.
  revert st. unfold Interleaved.onModuleInit, onModuleInit.
  apply alone_pbind_as; [ intro; apply alone_sync | intros s st ].
  destruct (rabbitMQEnabled s && isSome (rabbitmq (config s)));
    [ | apply alone_sync ].
  rewrite alone_await. apply alone_connectToRabbitMQ.
Qed.

Lemma alone_onModuleDestroy st :
  Interleaved.alone (Interleaved.onModuleDestroy rt) st =
  onModuleDestroy rt st.
Proof.
  unfold Interleaved.onModuleDestroy, onModuleDestroy.
  rewrite alone_await. apply alone_disconnect.
Qed.

Lemma alone_sendToQueue q m o st :
  Interleaved.alone (Interleaved.sendToQueue rt q m o) st =
  sendToQueue rt q m o st.
Proof.
  revert st. unfold Interleaved.sendToQueue, sendToQueue.
  apply alone_pbind_as.
  - intro st. rewrite alone_await. apply alone_ensureConnection.
  - intros _ st. apply alone_sync.
Qed.

Lemma alone_publishToExchange x k m o st :
  Interleaved.alone (Interleaved.publishToExchange rt x k m o) st =
  publishToExchange rt x k m o st.
Proof.
  revert st. unfold Interleaved.publishToExchange, publishToExchange.
  apply alone_pbind_as.
  - intro st. rewrite alone_await. apply alone_ensureConnection.
  - intros _ st. apply alone_sync.
Qed.

Lemma alone_emitEvent n d o st :
  Interleaved.alone (Interleaved.emitEvent rt n d o) st =
  emitEvent rt n d o st.
Proof.
  revert st. unfold Interleaved.emitEvent, emitEvent.
  apply alone_pbind_as; [ intro; apply alone_sync | intros _ ].
  apply alone_pbind_as; [ intro; apply alone_sync | intros s st ].
  destruct (rabbitMQEnabled s); [ | apply alone_sync ].
  revert st. apply alone_ptry_as.
  - apply alone_pbind_as.
    + intro st. rewrite alone_await. apply alone_sendToQueue.
    + intros _ st. apply alone_sync.
  - intros e st. apply alone_sync.
Qed.

Lemma alone_createQueue q o st :
  Interleaved.alone (Interleaved.createQueue rt q o) st =
  createQueue rt q o st.
Proof.
  revert st. unfold Interleaved.createQueue, createQueue.
  apply alone_pbind_as.
  - intro st. rewrite alone_await. apply alone_ensureConnection.
  - intros _. apply alone_pbind_as; [ intro; apply alone_sync | intros s st ].
    destruct (channel s); [ | apply alone_sync ].
    rewrite alone_await. apply alone_sync.
Qed.

Lemma alone_createExchange x o st :
  Interleaved.alone (Interleaved.createExchange rt x o) st =
  createExchange rt x o st.
Proof.
  revert st. unfold Interleaved.createExchange, createExchange.
  apply alone_pbind_as.
  - intro st. rewrite alone_await. apply alone_ensureConnection.
  - intros _. apply alone_pbind_as; [ intro; apply alone_sync | intros s st ].
    destruct (channel s); [ | apply alone_sync ].
    rewrite alone_await. apply alone_sync.
Qed.

Lemma alone_consume q h o st :
  Interleaved.alone (Interleaved.consume rt q h o) st = consume rt q h o st.
Proof.
  revert st. unfold Interleaved.consume, consume.
  apply alone_pbind_as.
  - intro st. rewrite alone_await. apply alone_ensureConnection.
  - intros _. apply alone_pbind_as; [ intro; apply alone_sync | intros s st ].
    destruct (channel s); [ | apply alone_sync ].
    rewrite alone_await. apply alone_sync.
Qed.

End AloneMethods.


(** * Calls in flight together *)


(** With calls in flight together the fields can also end up as a channel
    without a connection: two first uses dial, a shutdown nulls the
    connection the second one has just stored, and the second one then
    stores its channel. *)
Lemma interleaved_calls_leave_channel_without_connection :
  fst Scenarios.first_use_done = Ok tt /\
  fst Scenarios.shutdown_done = Interleaved.Settled (Ok tt) /\
  fst Scenarios.second_use_done = Throw (null_deref "on") /\
  connection (fst (snd Scenarios.second_use_done)) = None /\
  channel (fst (snd Scenarios.second_use_done)) = Some {| chan_id := 9 |}.
Proof. repeat split. Qed.

(** * Deliveries after shutdown *)

Lemma torn_down_reachable :
  reachable Doubles.happy Doubles.enabled Scenarios.torn_down.
Proof. do 2 apply reach_step. apply connected_reachable. Qed.

(** C5, as stated, fails for a delivery that arrives when no channel is
    cached.  On a service that registered a consumer and was then shut
    down, a delivery whose body does not decode is logged, but it is not
    rejected: [this.channel!.reject] reads null and the callback throws. *)
Lemma undecodable_delivery_after_shutdown_is_not_rejected :
  reachable Doubles.happy Doubles.enabled Scenarios.torn_down /\
  channel (fst Scenarios.torn_down) = None /\
  Doubles.parse (Buffer_toString (msg_content (Doubles.delivery "{not json")))
  = Throw (mkError "SyntaxError" "Unexpected token in JSON") /\
  deliveryCallback Doubles.happy Doubles.acking
    (Some (Doubles.delivery "{not json")) Scenarios.torn_down
  = (Throw (null_deref "reject"),
     (fst Scenarios.torn_down,
      snd Scenarios.torn_down ++
        [processing_error_log
           (mkError "SyntaxError" "Unexpected token in JSON")])).
Proof.
  split; [ apply torn_down_reachable | repeat split ].
Qed.

(** C10, as stated, fails for a delivery that arrives when no channel is
    cached.  On the same service, a handler that throws synchronously has
    its error logged, but the delivery is not rejected:
    [this.channel!.reject] reads null and the callback throws. *)
Lemma handler_throw_after_shutdown_is_not_rejected :
  reachable Doubles.happy Doubles.enabled Scenarios.torn_down /\
  channel (fst Scenarios.torn_down) = None /\
  deliveryCallback Doubles.happy Doubles.throwing
    (Some (Doubles.delivery "true")) Scenarios.torn_down
  = (Throw (null_deref "reject"),
     (fst Scenarios.torn_down,
      snd Scenarios.torn_down ++
        [processing_error_log (mkError "Error" "handler failed")])).
Proof.
  split; [ apply torn_down_reachable | repeat split ].
Qed.

(** * The [persistent] default *)

(** C6 holds of the claim and not of the code at the options object
    [{ persistent: undefined }].  [options?.persistent ?? true] evaluates
    to [true] there, yet the spread that follows copies the caller's own
    [persistent: undefined] over it: the options handed to
    [channel.sendToQueue] and [channel.publish] carry [persistent:
    undefined], not [persistent: true].  ([??] replaces only a missing or
    undefined value: a caller's [persistent: false] is kept by it.) *)
Lemma undefined_persistent_overwrites_the_default :
  nullish_or (Value false) true = false /\
  nullish_or (mo_persistent Scenarios.undefined_persistent) true = true /\
  mo_persistent (publishOptions (Some Scenarios.undefined_persistent))
  = Undefined /\
  sendToQueue Doubles.happy "q" (JObject [])
    (Some Scenarios.undefined_persistent) Doubles.connected
  = (Ok true,
     (fst Doubles.connected,
      snd Doubles.connected ++
        [EvSendToQueue {| chan_id := 1 |} "q" "{}"
           Scenarios.undefined_persistent])) /\
  publishToExchange Doubles.happy "user-events" "user.updated" (JObject [])
    (Some Scenarios.undefined_persistent) Doubles.connected
  = (Ok true,
     (fst Doubles.connected,
      snd Doubles.connected ++
        [EvPublish {| chan_id := 1 |} "user-events" "user.updated" "{}"
           Scenarios.undefined_persistent])).
Proof. repeat split. Qed.
